(** * split.py: splitting a songbook document into per-song, per-album,
      per-artist, profile, metadata and catalog files.

    A shallow embedding of [split.py] and the properties of its
    specification.

    Conventions of the embedding.
    - A Python [str] is a [string]; each [ascii] is one byte of its UTF-8
      form.  The characters the program tests for are all below 128, so a
      byte-wise reading of [re.sub] and [str.replace] agrees with the
      code-point-wise one, and byte-wise lexicographic order agrees with
      Python's code-point order.
    - A song record is read by the program through the keys [title],
      [album] and [artist] only; the data model takes the three to be
      strings, and every other field is carried along untouched.
    - Input and output are a trace of events: every [print], [os.makedirs]
      and file write appends one event.  Whether a read, a [makedirs] or a
      write succeeds is decided by the environment, a record of oracles.
    - An exception is a value of [exn]; a computation yields the trace it
      produced and either the exception that left it or its result.
    - In the first reading of the program every line is printed.  The
      module [WithStdout] reads it again with a standard output that can
      refuse a line, for the properties that depend on what a failing
      [print] does. *)

From Stdlib Require Import String Ascii List Bool Arith NArith Lia.
From Stdlib Require Import Sorting.Sorted Sorting.Permutation.
From Stdlib Require Import Decimal DecimalString.
Import ListNotations.
Local Open Scope list_scope.
Local Open Scope string_scope.

(** ** Strings *)

Module Str.

(** The double quote, the backslash and the line feed, by code. *)
Definition dquote : ascii := ascii_of_nat 34.
Definition backslash : ascii := ascii_of_nat 92.
Definition newline : ascii := ascii_of_nat 10.

(** [re.sub(cls, '', s)] for a character class [cls]: every character of
    the class is dropped. *)
Fixpoint re_sub_class (cls : ascii -> bool) (s : string) : string :=
  match s with
  | EmptyString => EmptyString
  | String c s' =>
      if cls c then re_sub_class cls s' else String c (re_sub_class cls s')
  end.

(** [s.replace(a, b)] for one-character strings [a] and [b]. *)
Fixpoint replace (a b : ascii) (s : string) : string :=
  match s with
  | EmptyString => EmptyString
  | String c s' =>
      String (if Ascii.eqb c a then b else c) (replace a b s')
  end.

(** Number of characters of [s] that satisfy [p]. *)
Fixpoint count (p : ascii -> bool) (s : string) : nat :=
  match s with
  | EmptyString => 0
  | String c s' => (if p c then 1 else 0) + count p s'
  end.

(** [str(n)] for a non-negative integer. *)
Definition of_nat (n : nat) : string :=
  NilEmpty.string_of_uint (Nat.to_uint n).

End Str.

(** ** [sanitize_filename] *)

(** The character class of the regular expression: backslash, slash,
    star, question mark, colon, double quote, angle brackets, bar. *)
Definition invalid_chars : list ascii :=
  [Str.backslash; "/"; "*"; "?"; ":"; Str.dquote; "<"; ">"; "|"]%char.

Definition is_invalid_char (c : ascii) : bool :=
  existsb (Ascii.eqb c) invalid_chars.

Definition sanitize_filename (name : string) : string :=
  let sanitized := Str.re_sub_class is_invalid_char name in
  let sanitized := Str.replace " " "_" sanitized in
  sanitized.

(** The contract in the specification's words, one character at a time:
    a character of the set is removed, a space becomes an underscore, any
    other character stays. *)
Definition sanitize_char (c : ascii) : list ascii :=
  if is_invalid_char c then []
  else if Ascii.eqb c " " then ["_"%char]
  else [c].

Definition sanitize_spec (name : string) : string :=
  string_of_list_ascii (flat_map sanitize_char (list_ascii_of_string name)).

(** ** Data model *)

(** A JSON value as [json.load] returns it.  The program never looks into
    a number, so a number is kept as its literal. *)
#[local] Set Warnings "-register-all".
Inductive json : Type :=
| JNull
| JBool (b : bool)
| JNumber (literal : string)
| JString (s : string)
| JArray (items : list json)
| JObject (members : list (string * json)).

(** A song record: the three keys the program reads, each absent ([None])
    or a string, and the remaining members of the object. *)
Record song : Type := {
  title : option string;
  album : option string;
  artist : option string;
  other_fields : list (string * json)
}.

(** The songbook document: [metadata] and [songs], each possibly absent. *)
Record document : Type := {
  doc_metadata : option json;
  doc_songs : option (list song)
}.

(** The object written to an album file. *)
Record album_data : Type := {
  album_title : string;
  album_artist : string;
  album_song_count : nat;
  album_songs : list song
}.

(** The object written to an artist file. *)
Record artist_data : Type := {
  artist_name : string;
  artist_song_count : nat;
  artist_songs : list song
}.

(** The value of one key of the catalog's [albums] mapping. *)
Record album_entry : Type := {
  entry_artist : string;
  entry_songs : list string
}.

(** The catalog.  A Python dict keeps its keys in insertion order, so each
    mapping is an association list with distinct keys. *)
Record catalog : Type := {
  catalog_artists : list (string * list string);
  catalog_albums : list (string * album_entry);
  catalog_songs : list string
}.

(** What [json.dump] is given. *)
Inductive dumped : Type :=
| OfSong (s : song)
| OfAlbum (a : album_data)
| OfArtist (a : artist_data)
| OfJson (j : json)
| OfCatalog (c : catalog).

(** A path is the list of the components [os.path.join] put together. *)
Definition path : Type := list string.

Definition os_path_join (dir : path) (name : string) : path :=
  (dir ++ [name])%list.

(** Exceptions (instances of [Exception]), each with the text [str(e)]. *)
Inductive exn : Type :=
| FileNotFoundError (msg : string)
| JSONDecodeError (msg : string)
| OtherException (msg : string).

Definition str (e : exn) : string :=
  match e with
  | FileNotFoundError msg | JSONDecodeError msg | OtherException msg => msg
  end.

(** Observable events, in the order they happen.  [WriteFailed p] is an
    attempt to write [p] that raised: the file is as the attempt left it,
    untouched if [open] raised, and created, truncated or partly written
    if the dump raised. *)
Inductive event : Type :=
| Print (line : string)
| Makedirs (dir : path)
| Write (file : path) (value : dumped)
| WriteFailed (file : path).

(** The environment: what reading the input gives, and whether creating a
    directory or writing a file succeeds ([None]) or raises. *)
Record environment : Type := {
  read_json : string -> exn + document;
  makedirs : path -> option exn;
  write_json : path -> dumped -> option exn
}.

(** ** Computations: a trace, and an exception or a result *)

Definition M (A : Type) : Type := list event * (exn + A).

Definition ret {A : Type} (a : A) : M A := ([], inr a).

Definition raise {A : Type} (e : exn) : M A := ([], inl e).

Definition bind {A B : Type} (m : M A) (k : A -> M B) : M B :=
  match m with
  | (t, inl e) => (t, inl e)
  | (t, inr a) => let (t', r) := k a in ((t ++ t')%list, r)
  end.

Notation "x <- m ;; k" := (bind m (fun x => k))
  (at level 61, m at next level, right associativity).
Notation "m ;; k" := (bind m (fun _ => k))
  (at level 61, right associativity).

(** [try: body except Exception as e: handler(e)] *)
Definition try_except {A : Type} (body : M A) (handler : exn -> M A) : M A :=
  match body with
  | (t, inl e) => let (t', r) := handler e in ((t ++ t')%list, r)
  | (t, inr a) => (t, inr a)
  end.

Definition emit (ev : event) : M unit := ([ev], inr tt).

Definition print (line : string) : M unit := emit (Print line).

(** [for x in l: body(x)] *)
Fixpoint for_each {A : Type} (body : A -> M unit) (l : list A) : M unit :=
  match l with
  | [] => ret tt
  | x :: l' => body x ;; for_each body l'
  end.

Definition trace {A : Type} (m : M A) : list event := fst m.

Definition outcome {A : Type} (m : M A) : exn + A := snd m.

(** ** Python operations on the data *)

(** [d.get(k, default)] on a key that is absent or holds a string. *)
Definition get_or (field : option string) (default : string) : string :=
  match field with
  | Some v => v
  | None => default
  end.

(** Truth value of [d.get(k)]: absent ([None]) and the empty string are
    false. *)
Definition truthy (field : option string) : bool :=
  match field with
  | Some v => negb (v =? "")
  | None => false
  end.

(** [d.get(k) == v] *)
Definition get_eq (field : option string) (v : string) : bool :=
  match field with
  | Some v' => v' =? v
  | None => false
  end.

(** Insertion of [x] into a list ordered by [key], after the elements with
    a smaller key and before the others. *)
Fixpoint insert_by {A : Type} (key : A -> string) (x : A) (l : list A)
  : list A :=
  match l with
  | [] => [x]
  | y :: l' =>
      if (key y <? key x)%string then y :: insert_by key x l'
      else x :: y :: l'
  end.

(** [sorted(l, key=key)]: Python's sort is stable, and the stable sorted
    arrangement of a list is unique; insertion from the right builds it. *)
Fixpoint sorted_by {A : Type} (key : A -> string) (l : list A) : list A :=
  match l with
  | [] => []
  | x :: l' => insert_by key x (sorted_by key l')
  end.

(** [sorted(l)] and [l.sort()] on a list of strings. *)
Definition sorted (l : list string) : list string :=
  sorted_by (fun s => s) l.

(** The key [lambda x: x.get('title', '')]. *)
Definition title_key (x : song) : string := get_or (title x) "".

(** [if k not in d: d[k] = []] followed by [d[k].append(v)], on a dict kept
    in insertion order. *)
Fixpoint dict_append {V : Type} (k : string) (v : V)
  (d : list (string * list V)) : list (string * list V) :=
  match d with
  | [] => [(k, [v])]
  | (k', vs) :: d' =>
      if k' =? k then (k', (vs ++ [v])%list) :: d'
      else (k', vs) :: dict_append k v d'
  end.

(** The grouping loop shared by the album and the artist writers:
    [for song in songs_data: if song.get(field): groups[song[field]].append(song)]. *)
Definition group_songs (field : song -> option string)
  (songs_data : list song) : list (string * list song) :=
  fold_left
    (fun groups song =>
       if truthy (field song)
       then dict_append (get_or (field song) "") song groups
       else groups)
    songs_data [].

(** [songs_in_album[0]]; the groups built by [group_songs] are never
    empty. *)
Definition first_of (l : list song) : option song := hd_error l.

Definition make_album_data (title_of_album : string)
  (songs_in_album : list song) : album_data :=
  let sorted_songs := sorted_by title_key songs_in_album in
  {| album_title := title_of_album;
     album_artist :=
       match first_of songs_in_album with
       | Some s => get_or (artist s) "Various Artists"
       | None => "Various Artists"
       end;
     album_song_count := List.length sorted_songs;
     album_songs := sorted_songs |}.

Definition make_artist_data (name : string) (songs_by_artist : list song)
  : artist_data :=
  let sorted_songs := sorted_by title_key songs_by_artist in
  {| artist_name := name;
     artist_song_count := List.length sorted_songs;
     artist_songs := sorted_songs |}.

(** *** The catalog *)

(** [if album not in albums: albums[album] = {artist, songs: []}] followed
    by [albums[album]['songs'].append(t)]. *)
Fixpoint album_append (k : string) (artist_of_album : string) (t : string)
  (d : list (string * album_entry)) : list (string * album_entry) :=
  match d with
  | [] => [(k, {| entry_artist := artist_of_album; entry_songs := [t] |})]
  | (k', e) :: d' =>
      if k' =? k
      then (k', {| entry_artist := entry_artist e;
                   entry_songs := (entry_songs e ++ [t])%list |}) :: d'
      else (k', e) :: album_append k artist_of_album t d'
  end.

(** [[song['title'] for song in songs_data
      if 'title' in song and song['title'] != 'Profile']] *)
Definition catalog_titles (songs_data : list song) : list string :=
  flat_map
    (fun song =>
       match title song with
       | Some t => if negb (t =? "Profile") then [t] else []
       | None => []
       end)
    songs_data.

(** One turn of the loop that fills [artists] and [albums]. *)
Definition catalog_add (c : catalog) (song : song) : catalog :=
  if negb (truthy (title song)) || get_eq (title song) "Profile" then c
  else
    let artist_key := get_or (artist song) "Unknown Artist" in
    let album_key := get_or (album song) "Uncategorized" in
    let t := get_or (title song) "" in
    {| catalog_artists := dict_append artist_key t (catalog_artists c);
       catalog_albums := album_append album_key artist_key t (catalog_albums c);
       catalog_songs := catalog_songs c |}.

(** The two loops that sort every list of titles in place. *)
Definition catalog_sort (c : catalog) : catalog :=
  {| catalog_artists :=
       map (fun kv => (fst kv, sorted (snd kv))) (catalog_artists c);
     catalog_albums :=
       map (fun kv => (fst kv,
                       {| entry_artist := entry_artist (snd kv);
                          entry_songs := sorted (entry_songs (snd kv)) |}))
           (catalog_albums c);
     catalog_songs := catalog_songs c |}.

(** The catalog object as it stands when it is written. *)
Definition build_catalog (songs_data : list song) : catalog :=
  let c := {| catalog_artists := [];
              catalog_albums := [];
              catalog_songs := [] |} in
  let c := {| catalog_artists := catalog_artists c;
              catalog_albums := catalog_albums c;
              catalog_songs := sorted (catalog_titles songs_data) |} in
  let c := fold_left catalog_add songs_data c in
  catalog_sort c.

(** ** The program *)

Section Program.

Variable env : environment.

(** [os.makedirs(dir, exist_ok=True)] *)
Definition os_makedirs (dir : path) : M unit :=
  match makedirs env dir with
  | None => emit (Makedirs dir)
  | Some e => raise e
  end.

(** [with open(filepath, 'w', encoding='utf-8') as f: json.dump(value, f, ...)] *)
Definition dump_to (filepath : path) (value : dumped) : M unit :=
  match write_json env filepath value with
  | None => emit (Write filepath value)
  | Some e => emit (WriteFailed filepath) ;; raise e
  end.

(** [with open(input_filepath, 'r', encoding='utf-8') as f: data = json.load(f)] *)
Definition json_load (input_filepath : string) : M document :=
  match read_json env input_filepath with
  | inl e => raise e
  | inr data => ret data
  end.

Definition create_directories (base_path : path) : M unit :=
  print "Creating output directories..." ;;
  os_makedirs (os_path_join base_path "songs") ;;
  os_makedirs (os_path_join base_path "albums") ;;
  os_makedirs (os_path_join base_path "artists") ;;
  print "Directories created successfully.".

(** The body of the loop of [create_song_files]. *)
Definition create_song_file (song_dir : path) (song : song) : M unit :=
  match title song with
  | Some t =>
      if negb (t =? "Profile") then
        try_except
          (let filename := sanitize_filename t ++ ".json" in
           let filepath := os_path_join song_dir filename in
           dump_to filepath (OfSong song))
          (fun e =>
             print ("Could not create file for song: "
                    ++ get_or (title song) "NO_TITLE"
                    ++ ". Error: " ++ str e))
      else ret tt
  | None => ret tt
  end.

Definition create_song_files (songs_data : list song) (base_path : path)
  : M unit :=
  print ("Creating individual files for "
         ++ Str.of_nat (List.length songs_data) ++ " songs...") ;;
  let song_dir := os_path_join base_path "songs" in
  for_each (create_song_file song_dir) songs_data ;;
  print "Song files created.".

(** The body of the second loop of [create_album_files]. *)
Definition create_album_file (album_dir : path)
  (item : string * list song) : M unit :=
  let (title_of_album, songs_in_album) := item in
  try_except
    (let filename := sanitize_filename title_of_album ++ ".json" in
     let filepath := os_path_join album_dir filename in
     dump_to filepath (OfAlbum (make_album_data title_of_album songs_in_album)))
    (fun e =>
       print ("Could not create file for album: " ++ title_of_album
              ++ ". Error: " ++ str e)).

Definition create_album_files (songs_data : list song) (base_path : path)
  : M unit :=
  print "Grouping songs by album and creating album files..." ;;
  let albums := group_songs album songs_data in
  let album_dir := os_path_join base_path "albums" in
  for_each (create_album_file album_dir) albums ;;
  print "Album files created.".

(** The body of the second loop of [create_artist_files]. *)
Definition create_artist_file (artist_dir : path)
  (item : string * list song) : M unit :=
  let (name, songs_by_artist) := item in
  try_except
    (let filename := sanitize_filename name ++ ".json" in
     let filepath := os_path_join artist_dir filename in
     dump_to filepath (OfArtist (make_artist_data name songs_by_artist)))
    (fun e =>
       print ("Could not create file for artist: " ++ name
              ++ ". Error: " ++ str e)).

Definition create_artist_files (songs_data : list song) (base_path : path)
  : M unit :=
  print "Grouping songs by artist and creating artist files..." ;;
  let artists := group_songs artist songs_data in
  let artist_dir := os_path_join base_path "artists" in
  for_each (create_artist_file artist_dir) artists ;;
  print "Artist files created.".

(** [data.get('songs', [])] *)
Definition get_songs (data : document) : list song :=
  match doc_songs data with
  | Some l => l
  | None => []
  end.

(** [next((item for item in ... if item.get('title') == 'Profile'), None)] *)
Definition find_profile (data : document) : option song :=
  find (fun item => get_eq (title item) "Profile") (get_songs data).

(** The record found has a [title], so as a dict it is not empty and
    [if profile_data:] holds exactly when a record was found. *)
Definition create_profile_and_metadata_files (data : document)
  (base_path : path) : M unit :=
  print "Extracting profile and metadata..." ;;
  match doc_metadata data with
  | Some metadata =>
      let filepath := os_path_join base_path "metadata.json" in
      dump_to filepath (OfJson metadata) ;;
      print "metadata.json created."
  | None => ret tt
  end ;;
  let profile_data := find_profile data in
  match profile_data with
  | Some profile =>
      let filepath := os_path_join base_path "artist_profile.json" in
      dump_to filepath (OfSong profile) ;;
      print "artist_profile.json created."
  | None => ret tt
  end.

Definition create_catalog_file (songs_data : list song) (base_path : path)
  : M unit :=
  print "Creating master catalog file..." ;;
  let catalog := build_catalog songs_data in
  let filepath := os_path_join base_path "catalog.json" in
  dump_to filepath (OfCatalog catalog) ;;
  print "catalog.json created successfully.".

(** The message of each [except] clause of the loader, first match first. *)
Definition load_diagnostic (input_filepath : string) (e : exn) : string :=
  match e with
  | FileNotFoundError _ =>
      "Error: The file '" ++ input_filepath ++ "' was not found."
  | JSONDecodeError _ =>
      "Error: The file '" ++ input_filepath ++ "' is not a valid JSON file."
  | OtherException _ =>
      "An unexpected error occurred while reading the file: " ++ str e
  end.

(** [[song for song in songs_data if song.get('title') != 'Profile']] *)
Definition songs_only_of (songs_data : list song) : list song :=
  filter (fun song => negb (get_eq (title song) "Profile")) songs_data.

Definition process_songbook (input_filepath output_dir : string)
  : M unit :=
  loaded <-
    try_except
      (print ("Loading songbook from: " ++ input_filepath) ;;
       data <- json_load input_filepath ;;
       ret (Some data))
      (fun e => print (load_diagnostic input_filepath e) ;; ret None) ;;
  match loaded with
  | None => ret tt
  | Some data =>
      let songs_data := get_songs data in
      let songs_only := songs_only_of songs_data in
      let base_path : path := [output_dir] in
      create_directories base_path ;;
      create_song_files songs_only base_path ;;
      create_album_files songs_only base_path ;;
      create_artist_files songs_only base_path ;;
      create_profile_and_metadata_files data base_path ;;
      create_catalog_file songs_only base_path ;;
      print (String Str.newline "Processing complete!") ;;
      print ("All files have been saved in the '" ++ output_dir
             ++ "' directory.")
  end.

End Program.

(** ** The program when printing can fail *)

(** [print] writes to the standard output, and raises when the output
    refuses the line: it cannot encode it, or it is closed.  Above, every
    line is taken to be printed.  Here the program is read again with a
    standard output [stdout] that tells, for each line, whether printing
    it raises; the functions without a [print] are those above. *)

Module WithStdout.

Section StdoutProgram.

Variable env : environment.

Variable stdout : string -> option exn.

Definition print (line : string) : M unit :=
  match stdout line with
  | None => emit (Print line)
  | Some e => raise e
  end.

Definition create_directories (base_path : path) : M unit :=
  print "Creating output directories..." ;;
  os_makedirs env (os_path_join base_path "songs") ;;
  os_makedirs env (os_path_join base_path "albums") ;;
  os_makedirs env (os_path_join base_path "artists") ;;
  print "Directories created successfully.".

(** The body of the loop of [create_song_files]. *)
Definition create_song_file (song_dir : path) (song : song) : M unit :=
  match title song with
  | Some t =>
      if negb (t =? "Profile") then
        try_except
          (let filename := sanitize_filename t ++ ".json" in
           let filepath := os_path_join song_dir filename in
           dump_to env filepath (OfSong song))
          (fun e =>
             print ("Could not create file for song: "
                    ++ get_or (title song) "NO_TITLE"
                    ++ ". Error: " ++ str e))
      else ret tt
  | None => ret tt
  end.

Definition create_song_files (songs_data : list song) (base_path : path)
  : M unit :=
  print ("Creating individual files for "
         ++ Str.of_nat (List.length songs_data) ++ " songs...") ;;
  let song_dir := os_path_join base_path "songs" in
  for_each (create_song_file song_dir) songs_data ;;
  print "Song files created.".

(** The body of the second loop of [create_album_files]. *)
Definition create_album_file (album_dir : path)
  (item : string * list song) : M unit :=
  let (title_of_album, songs_in_album) := item in
  try_except
    (let filename := sanitize_filename title_of_album ++ ".json" in
     let filepath := os_path_join album_dir filename in
     dump_to env filepath
       (OfAlbum (make_album_data title_of_album songs_in_album)))
    (fun e =>
       print ("Could not create file for album: " ++ title_of_album
              ++ ". Error: " ++ str e)).

Definition create_album_files (songs_data : list song) (base_path : path)
  : M unit :=
  print "Grouping songs by album and creating album files..." ;;
  let albums := group_songs album songs_data in
  let album_dir := os_path_join base_path "albums" in
  for_each (create_album_file album_dir) albums ;;
  print "Album files created.".

(** The body of the second loop of [create_artist_files]. *)
Definition create_artist_file (artist_dir : path)
  (item : string * list song) : M unit :=
  let (name, songs_by_artist) := item in
  try_except
    (let filename := sanitize_filename name ++ ".json" in
     let filepath := os_path_join artist_dir filename in
     dump_to env filepath (OfArtist (make_artist_data name songs_by_artist)))
    (fun e =>
       print ("Could not create file for artist: " ++ name
              ++ ". Error: " ++ str e)).

Definition create_artist_files (songs_data : list song) (base_path : path)
  : M unit :=
  print "Grouping songs by artist and creating artist files..." ;;
  let artists := group_songs artist songs_data in
  let artist_dir := os_path_join base_path "artists" in
  for_each (create_artist_file artist_dir) artists ;;
  print "Artist files created.".

Definition create_profile_and_metadata_files (data : document)
  (base_path : path) : M unit :=
  print "Extracting profile and metadata..." ;;
  match doc_metadata data with
  | Some metadata =>
      let filepath := os_path_join base_path "metadata.json" in
      dump_to env filepath (OfJson metadata) ;;
      print "metadata.json created."
  | None => ret tt
  end ;;
  let profile_data := find_profile data in
  match profile_data with
  | Some profile =>
      let filepath := os_path_join base_path "artist_profile.json" in
      dump_to env filepath (OfSong profile) ;;
      print "artist_profile.json created."
  | None => ret tt
  end.

Definition create_catalog_file (songs_data : list song) (base_path : path)
  : M unit :=
  print "Creating master catalog file..." ;;
  let catalog := build_catalog songs_data in
  let filepath := os_path_join base_path "catalog.json" in
  dump_to env filepath (OfCatalog catalog) ;;
  print "catalog.json created successfully.".

Definition process_songbook (input_filepath output_dir : string)
  : M unit :=
  loaded <-
    try_except
      (print ("Loading songbook from: " ++ input_filepath) ;;
       data <- json_load env input_filepath ;;
       ret (Some data))
      (fun e => print (load_diagnostic input_filepath e) ;; ret None) ;;
  match loaded with
  | None => ret tt
  | Some data =>
      let songs_data := get_songs data in
      let songs_only := songs_only_of songs_data in
      let base_path : path := [output_dir] in
      create_directories base_path ;;
      create_song_files songs_only base_path ;;
      create_album_files songs_only base_path ;;
      create_artist_files songs_only base_path ;;
      create_profile_and_metadata_files data base_path ;;
      create_catalog_file songs_only base_path ;;
      print (String Str.newline "Processing complete!") ;;
      print ("All files have been saved in the '" ++ output_dir
             ++ "' directory.")
  end.

End StdoutProgram.

End WithStdout.

(** ** Vocabulary of the properties *)

(** [x] comes no later than [y] in the order of their keys. *)
Definition key_le {A : Type} (key : A -> string) (x y : A) : Prop :=
  (key x <=? key y) = true.

(** Ascending order of strings, Python's [<=] on [str]. *)
Definition str_le (a b : string) : Prop := (a <=? b) = true.

(** [x] belongs to the group of key [k]: its field is set, not empty, and
    equal to [k]. *)
Definition in_group (field : song -> option string) (k : string) (x : song)
  : bool :=
  truthy (field x) && (get_or (field x) "" =? k).

(** What [process_songbook] does once the document [data] is loaded. *)
Definition after_load (env : environment) (data : document)
  (output_dir : string) : M unit :=
  let songs_data := get_songs data in
  let songs_only := songs_only_of songs_data in
  let base_path : path := [output_dir] in
  create_directories env base_path ;;
  create_song_files env songs_only base_path ;;
  create_album_files env songs_only base_path ;;
  create_artist_files env songs_only base_path ;;
  create_profile_and_metadata_files env data base_path ;;
  create_catalog_file env songs_only base_path ;;
  print (String Str.newline "Processing complete!") ;;
  print ("All files have been saved in the '" ++ output_dir
         ++ "' directory.").

(** The file a song, an album or an artist is written to. *)
Definition item_path (base_path : path) (dir name : string) : path :=
  os_path_join (os_path_join base_path dir) (sanitize_filename name ++ ".json").

(** The line logged when the file of an item could not be written. *)
Definition could_not_create (kind name : string) (e : exn) : string :=
  "Could not create file for " ++ kind ++ ": " ++ name
  ++ ". Error: " ++ str e.

(** The writes a run on the document [data] can perform, by the stage
    that performs them. *)
Inductive written_by (data : document) (output_dir : string)
  : path -> dumped -> Prop :=
| ByCreateSongFiles (s : song) (t : string) :
    In s (songs_only_of (get_songs data)) ->
    title s = Some t -> t <> "Profile" ->
    written_by data output_dir (item_path [output_dir] "songs" t) (OfSong s)
| ByCreateAlbumFiles (k : string) (g : list song) :
    In (k, g) (group_songs album (songs_only_of (get_songs data))) ->
    written_by data output_dir (item_path [output_dir] "albums" k)
      (OfAlbum (make_album_data k g))
| ByCreateArtistFiles (k : string) (g : list song) :
    In (k, g) (group_songs artist (songs_only_of (get_songs data))) ->
    written_by data output_dir (item_path [output_dir] "artists" k)
      (OfArtist (make_artist_data k g))
| ByMetadata (metadata : json) :
    doc_metadata data = Some metadata ->
    written_by data output_dir [output_dir; "metadata.json"] (OfJson metadata)
| ByProfile (profile : song) :
    find_profile data = Some profile ->
    written_by data output_dir [output_dir; "artist_profile.json"]
      (OfSong profile)
| ByCreateCatalogFile :
    written_by data output_dir [output_dir; "catalog.json"]
      (OfCatalog (build_catalog (songs_only_of (get_songs data)))).

(** The title [t] occurs in the catalog [c]: in its list of songs, in the
    list of an artist or in the list of an album. *)
Definition catalog_mentions (c : catalog) (t : string) : Prop :=
  In t (catalog_songs c)
  \/ (exists k l, In (k, l) (catalog_artists c) /\ In t l)
  \/ (exists k e, In (k, e) (catalog_albums c) /\ In t (entry_songs e)).

(** The record has a [title] key. *)
Definition has_title (s : song) : bool :=
  match title s with
  | Some _ => true
  | None => false
  end.

(** The record is titled [Profile]. *)
Definition is_profile (s : song) : bool := get_eq (title s) "Profile".

(** The titles of the specification's catalog: those of all records that
    have a title other than [Profile], in input order, repeats kept. *)
Definition eligible_titles (songs : list song) : list string :=
  map title_key
    (filter (fun s => has_title s && negb (is_profile s)) songs).

(** [t] is the title of a record of [l] and is not [Profile]. *)
Definition listed_from (l : list song) (t : string) : Prop :=
  t <> "Profile" /\ exists s, In s l /\ title s = Some t.

(** What a written value must satisfy for the records titled [Profile] to
    stay out of it: such a record is dumped to the profile file only, is a
    member of no album or artist file, and the catalog is the catalog of
    the other records and lists no title [Profile]. *)
Definition keeps_profile_out (data : document) (output_dir : string)
  (p : path) (v : dumped) : Prop :=
  match v with
  | OfSong s =>
      title s = Some "Profile" ->
      p = [output_dir; "artist_profile.json"]
      /\ forall dir name, p <> item_path [output_dir] dir name
  | OfAlbum a => forall s, In s (album_songs a) -> title s <> Some "Profile"
  | OfArtist a => forall s, In s (artist_songs a) -> title s <> Some "Profile"
  | OfJson _ => True
  | OfCatalog c =>
      c = build_catalog (filter (fun s => negb (is_profile s)) (get_songs data))
      /\ forall t, catalog_mentions c t -> t <> "Profile"
  end.

(** The record [s] is kept out of the written value [v] altogether: it is
    not the record dumped, not a member of an album or an artist file, and
    the catalog is the catalog of the records that have a title. *)
Definition untitled_excluded_from (data : document) (s : song) (v : dumped)
  : Prop :=
  match v with
  | OfSong s' => s' <> s
  | OfAlbum a => ~ In s (album_songs a)
  | OfArtist a => ~ In s (artist_songs a)
  | OfJson _ => True
  | OfCatalog c => c = build_catalog (filter has_title (get_songs data))
  end.

(** The same for song files and the catalog only. *)
Definition untitled_out_of_songs_and_catalog (data : document) (s : song)
  (v : dumped) : Prop :=
  match v with
  | OfSong s' => s' <> s
  | OfCatalog c => c = build_catalog (filter has_title (get_songs data))
  | OfAlbum _ | OfArtist _ | OfJson _ => True
  end.

(** An album or artist file has its [songs] in ascending order of title
    (a record without a title counting as the empty title) and gives their
    number as [song_count]. *)
Definition members_sorted_and_counted (v : dumped) : Prop :=
  match v with
  | OfAlbum a =>
      StronglySorted (key_le title_key) (album_songs a)
      /\ album_song_count a = List.length (album_songs a)
  | OfArtist a =>
      StronglySorted (key_le title_key) (artist_songs a)
      /\ artist_song_count a = List.length (artist_songs a)
  | OfSong _ | OfJson _ | OfCatalog _ => True
  end.

(** The first record of [songs], in their order, whose [album] is [k]. *)
Definition first_with_album (songs : list song) (k : string) : option song :=
  find (fun x => get_eq (album x) k) songs.

(** The [artist] of the album file [a] is the artist of the first record
    of [songs] in that album, or [Various Artists] if it has none. *)
Definition artist_of_first (songs : list song) (a : album_data) : Prop :=
  exists s, first_with_album songs (album_title a) = Some s
            /\ album_artist a = get_or (artist s) "Various Artists".


(** The three diagnostics of the loader. *)
Definition not_found_message (input_filepath : string) : string :=
  "Error: The file '" ++ input_filepath ++ "' was not found.".

Definition not_json_message (input_filepath : string) : string :=
  "Error: The file '" ++ input_filepath ++ "' is not a valid JSON file.".

Definition unexpected_message (e : exn) : string :=
  "An unexpected error occurred while reading the file: " ++ str e.

(** ** Sample documents and environments *)

Module Sample.

Definition record (t al ar : option string) : song :=
  {| title := t; album := al; artist := ar; other_fields := [] |}.

Definition song_A : song := record (Some "A") (Some "Z") (Some "X").

Definition song_B : song := record (Some "B") (Some "Z") (Some "X").

Definition profile : song :=
  {| title := Some "Profile"; album := None; artist := None;
     other_fields := [("bio", JString "hi")] |}.

(** A record without a title, in the album [Z]. *)
Definition untitled : song := record None (Some "Z") (Some "X").

(** The example document of the specification. *)
Definition songbook : document :=
  {| doc_metadata := Some (JObject [("v", JNumber "1")]);
     doc_songs := Some [song_B; song_A; profile] |}.

(** Two songs of one album by different artists, the later title first. *)
Definition compilation : list song :=
  [record (Some "B") (Some "Z") (Some "Y");
   record (Some "A") (Some "Z") (Some "X")].

Definition songbook_with_untitled : document :=
  {| doc_metadata := None;
     doc_songs := Some [song_B; untitled] |}.

Definition path_eqb (p q : path) : bool :=
  if list_eq_dec string_dec p q then true else false.

(** Reading gives [data]; every directory and file can be written. *)
Definition all_fine (data : document) : environment :=
  {| read_json := fun _ => inr data;
     makedirs := fun _ => None;
     write_json := fun _ _ => None |}.

(** As [all_fine], but writing one of the files [bad] raises. *)
Definition disk_error : exn := OtherException "No space left on device".

Definition fails_at (data : document) (bad : list path) : environment :=
  {| read_json := fun _ => inr data;
     makedirs := fun _ => None;
     write_json := fun p _ =>
       if existsb (path_eqb p) bad then Some disk_error else None |}.

(** Reading the input raises [e]. *)
Definition unreadable (e : exn) : environment :=
  {| read_json := fun _ => inl e;
     makedirs := fun _ => None;
     write_json := fun _ _ => None |}.


(** As [all_fine], but creating one of the directories [bad] raises. *)
Definition no_directory (data : document) (bad : list path) : environment :=
  {| read_json := fun _ => inr data;
     makedirs := fun p =>
       if existsb (path_eqb p) bad then Some disk_error else None;
     write_json := fun _ _ => None |}.


(** Two songs of one title in one album, after a later title. *)
Definition first_A : song := record (Some "A") (Some "Z") (Some "Y").

Definition second_A : song := record (Some "A") (Some "Z") (Some "X").

Definition songbook_with_twins : document :=
  {| doc_metadata := None;
     doc_songs := Some [song_B; first_A; second_A] |}.


(** A document with two records titled [Profile]. *)
Definition second_profile : song :=
  {| title := Some "Profile"; album := Some "Z"; artist := Some "X";
     other_fields := [("bio", JString "later")] |}.

Definition songbook_with_two_profiles : document :=
  {| doc_metadata := None;
     doc_songs := Some [song_B; profile; second_profile] |}.

(** A document with songs only. *)
Definition bare_songbook : document :=
  {| doc_metadata := None; doc_songs := Some [song_B; song_A] |}.


(** A song with neither artist nor album, and one with an empty title. *)
Definition loose_song : song := record (Some "C") None None.

Definition nameless_song : song := record (Some "") (Some "Z") (Some "X").

Definition songbook_with_loose_songs : document :=
  {| doc_metadata := None;
     doc_songs := Some [song_B; loose_song; nameless_song] |}.


(** A document with metadata and no [songs] key. *)
Definition songless : document :=
  {| doc_metadata := Some (JObject [("v", JNumber "1")]);
     doc_songs := None |}.


(** Two songs whose titles give the same file name. *)
Definition song_a_b : song := record (Some "A B") None None.

Definition song_a_b' : song := record (Some "A_B") None None.

Definition songbook_with_collision : document :=
  {| doc_metadata := None;
     doc_songs := Some [song_a_b; song_B; song_a_b'] |}.








(** A standard output that takes every line. *)
Definition stdout_fine (line : string) : option exn := None.

End Sample.

(** The name has no path separator in it. *)
Definition no_separator (name : string) : Prop :=
  forall c, In c (list_ascii_of_string name) ->
            c <> "/"%char /\ c <> Str.backslash.

(** The first exception raised by the three [os.makedirs] calls of
    [create_directories], if any. *)
Definition first_makedirs_error (env : environment) (base_path : path)
  : option exn :=
  match makedirs env (os_path_join base_path "songs") with
  | Some e => Some e
  | None =>
      match makedirs env (os_path_join base_path "albums") with
      | Some e => Some e
      | None => makedirs env (os_path_join base_path "artists")
      end
  end.

(** The records of the input, other than those titled [Profile], whose
    [field] is [k], in input order. *)
Definition members_of (field : song -> option string) (k : string)
  (data : document) : list song :=
  filter (fun s => negb (is_profile s) && get_eq (field s) k) (get_songs data).

(** The distinct elements of a list, in the order of their first
    occurrence. *)
Fixpoint first_seen (keys : list string) : list string :=
  match keys with
  | [] => []
  | k :: rest => k :: filter (fun x => negb (x =? k)) (first_seen rest)
  end.

(** The values of [field] that are set and not empty, in input order. *)
Definition keys_of (field : song -> option string) (songs : list song)
  : list string :=
  map (fun s => get_or (field s) "") (filter (fun s => truthy (field s)) songs).

(** The test of the loop of [create_catalog_file]: the record has a
    title that is not empty and not [Profile]. *)
Definition catalog_eligible (s : song) : bool :=
  truthy (title s) && negb (get_eq (title s) "Profile").

(** [song.get('artist', 'Unknown Artist')] and
    [song.get('album', 'Uncategorized')]. *)
Definition artist_key (s : song) : string := get_or (artist s) "Unknown Artist".

Definition album_key (s : song) : string := get_or (album s) "Uncategorized".

(** The records the catalog files under the key [k], in input order. *)
Definition filed_under (key : song -> string) (k : string) (l : list song)
  : list song :=
  filter (fun s => catalog_eligible s && (key s =? k)) l.

(** One turn of a loop that appends [value x] to the list of [key x] for
    every [x] it keeps. *)
Definition collect_step {X V : Type} (keep : X -> bool) (key : X -> string)
  (value : X -> V) (d : list (string * list V)) (x : X)
  : list (string * list V) :=
  if keep x then dict_append (key x) (value x) d else d.

(** The entry of the catalog's [albums] for a non-empty list of pairs of
    an artist and a title: the artist of the first pair, and the titles. *)
Definition entry_of (g : list (string * string)) : album_entry :=
  {| entry_artist := match g with
                     | (a, _) :: _ => a
                     | [] => ""
                     end;
     entry_songs := map snd g |}.

(** The files a trace writes, in order, with what is dumped to each. *)
Definition writes_of (t : list event) : list (path * dumped) :=
  flat_map (fun ev => match ev with
                      | Write p v => [(p, v)]
                      | Print _ | Makedirs _ | WriteFailed _ => []
                      end) t.






(** The line [process_songbook] prints when it is through. *)
Definition completion_line : string :=
  String Str.newline "Processing complete!".

(** The catalog of no song. *)
Definition empty_catalog : catalog :=
  {| catalog_artists := []; catalog_albums := []; catalog_songs := [] |}.

(** Equality of paths, as a boolean. *)
Definition same_path (p q : path) : bool :=
  if list_eq_dec string_dec p q then true else false.

(** The file an event writes to, or fails to write to. *)
Definition event_path (ev : event) : option path :=
  match ev with
  | Write q _ | WriteFailed q => Some q
  | Print _ | Makedirs _ => None
  end.

(** What is known of a file after some events of a run: the run has not
    touched it; or it holds the complete dump of a value; or the last
    attempt to write it raised, and it is as that attempt left it: as it
    was before if [open] raised, truncated or partly written if the dump
    raised. *)
Inductive file_state : Type :=
| Untouched
| Dumped (v : dumped)
| Uncertain.

(** The state of the file [p] after the events [t], from the state
    [before]. *)
Definition file_after (t : list event) (p : path) (before : file_state)
  : file_state :=
  fold_left
    (fun held ev =>
       match ev with
       | Write q v => if same_path q p then Dumped v else held
       | WriteFailed q => if same_path q p then Uncertain else held
       | Print _ | Makedirs _ => held
       end)
    t before.



(** * Properties *)

(** ** The order on strings *)

Section StringOrder.

Lemma ascii_compare_spec (a b : ascii) :
  CompareSpec (a = b) (N_of_ascii a < N_of_ascii b)%N
    (N_of_ascii b < N_of_ascii a)%N (Ascii.compare a b).
Proof.
  destruct (Ascii.compare a b) eqn:E; constructor.
  - now apply Ascii.compare_eq_iff.
  - unfold Ascii.compare in E. now apply N.compare_lt_iff.
  - unfold Ascii.compare in E. now apply N.compare_gt_iff.
Qed.

Lemma ascii_compare_refl (a : ascii) : Ascii.compare a a = Eq.
Proof. unfold Ascii.compare. apply N.compare_refl. Qed.

Lemma string_compare_refl (s : string) : String.compare s s = Eq.
Proof.
  induction s as [|c s IH]; simpl; [reflexivity|].
  now rewrite ascii_compare_refl.
Qed.

Lemma string_leb_refl (s : string) : (s <=? s) = true.
Proof. unfold String.leb. now rewrite string_compare_refl. Qed.

Lemma string_compare_not_gt_trans (a b c : string) :
  String.compare a b <> Gt -> String.compare b c <> Gt ->
  String.compare a c <> Gt.
Proof.
  revert b c.
  induction a as [|x a IH]; intros [|y b] [|z c]; simpl; try congruence.
  destruct (ascii_compare_spec x y) as [Exy | Hxy | Hxy];
    destruct (ascii_compare_spec y z) as [Eyz | Hyz | Hyz];
    destruct (ascii_compare_spec x z) as [Exz | Hxz | Hxz];
    subst; try congruence; try lia.
  apply IH.
Qed.

Lemma string_leb_trans (a b c : string) :
  (a <=? b) = true -> (b <=? c) = true -> (a <=? c) = true.
Proof.
  unfold String.leb. intros Hab Hbc.
  pose proof (string_compare_not_gt_trans a b c) as H.
  destruct (String.compare a b); try discriminate;
    destruct (String.compare b c); try discriminate;
    destruct (String.compare a c); try reflexivity;
    exfalso; apply H; congruence.
Qed.

Lemma string_ltb_leb (a b : string) : (a <? b) = true -> (a <=? b) = true.
Proof.
  unfold String.ltb, String.leb. now destruct (String.compare a b).
Qed.

Lemma string_ltb_false_leb (a b : string) :
  (a <? b) = false -> (b <=? a) = true.
Proof.
  unfold String.ltb, String.leb. rewrite (String.compare_antisym b a).
  now destruct (String.compare a b).
Qed.

End StringOrder.

(** ** Stable sorting by a key *)

Section Sorting.

Context {A : Type} (key : A -> string).

Lemma insert_by_perm (x : A) (l : list A) :
  Permutation (insert_by key x l) (x :: l).
Proof.
  induction l as [|y l IH]; simpl; [reflexivity|].
  destruct (key y <? key x); [|reflexivity].
  rewrite IH. apply perm_swap.
Qed.

Lemma sorted_by_perm (l : list A) : Permutation (sorted_by key l) l.
Proof.
  induction l as [|x l IH]; simpl; [reflexivity|].
  rewrite insert_by_perm. now constructor.
Qed.

Lemma sorted_by_length (l : list A) :
  List.length (sorted_by key l) = List.length l.
Proof. apply Permutation_length, sorted_by_perm. Qed.

Lemma sorted_by_In (x : A) (l : list A) : In x (sorted_by key l) <-> In x l.
Proof.
  split; apply Permutation_in; [|symmetry]; apply sorted_by_perm.
Qed.

Lemma insert_by_sorted (x : A) (l : list A) :
  StronglySorted (key_le key) l -> StronglySorted (key_le key) (insert_by key x l).
Proof.
  induction 1 as [|y l Hl IH Hy]; simpl.
  - repeat constructor.
  - destruct (key y <? key x) eqn:E.
    + constructor; [exact IH|].
      apply (Permutation_Forall (Permutation_sym (insert_by_perm x l))).
      constructor; [now apply string_ltb_leb | exact Hy].
    + apply string_ltb_false_leb in E.
      constructor; [now constructor|].
      constructor; [exact E|].
      eapply Forall_impl; [|exact Hy].
      intros z Hz. eapply string_leb_trans; eassumption.
Qed.

Lemma sorted_by_sorted (l : list A) : StronglySorted (key_le key) (sorted_by key l).
Proof.
  induction l as [|x l IH]; simpl; [constructor|].
  now apply insert_by_sorted.
Qed.

Lemma string_ltb_neq (a b : string) : (a <? b) = true -> a <> b.
Proof.
  unfold String.ltb. intros H ->. now rewrite string_compare_refl in H.
Qed.

(** The sort is stable: the elements of any one key keep their order. *)
Lemma insert_by_stable (k : string) (x : A) (l : list A) :
  filter (fun y => key y =? k) (insert_by key x l)
  = filter (fun y => key y =? k) (x :: l).
Proof.
  induction l as [|y l IH]; [reflexivity|].
  cbn [insert_by]. destruct (key y <? key x) eqn:E; [|reflexivity].
  apply string_ltb_neq in E.
  cbn [filter] in *. rewrite IH.
  destruct (String.eqb_spec (key y) k) as [Hy | Hy];
    destruct (String.eqb_spec (key x) k) as [Hx | Hx];
    try reflexivity.
  congruence.
Qed.

Lemma sorted_by_stable (k : string) (l : list A) :
  filter (fun y => key y =? k) (sorted_by key l)
  = filter (fun y => key y =? k) l.
Proof.
  induction l as [|x l IH]; [reflexivity|].
  cbn [sorted_by]. rewrite insert_by_stable. cbn [filter]. now rewrite IH.
Qed.

End Sorting.

Lemma sorted_perm (l : list string) : Permutation (sorted l) l.
Proof. apply sorted_by_perm. Qed.

Lemma sorted_sorted (l : list string) :
  StronglySorted str_le (sorted l).
Proof. apply (sorted_by_sorted (fun s : string => s)). Qed.

(** ** [sanitize_filename] *)

Section Sanitize.

Lemma sanitize_filename_cons (c : ascii) (s : string) :
  sanitize_filename (String c s)
  = if is_invalid_char c then sanitize_filename s
    else String (if Ascii.eqb c " " then "_"%char else c)
                (sanitize_filename s).
Proof.
  unfold sanitize_filename. simpl.
  now destruct (is_invalid_char c).
Qed.

Lemma sanitize_filename_nil : sanitize_filename EmptyString = EmptyString.
Proof. reflexivity. Qed.

Lemma underscore_kept :
  is_invalid_char "_" = false /\ Ascii.eqb "_" " " = false.
Proof. split; reflexivity. Qed.

Lemma space_not_invalid : is_invalid_char " " = false.
Proof. reflexivity. Qed.

(** C3 as the specification states it fails on its own example: the slash
    of [Love/Hate Story] is removed, not turned into an underscore. *)
Lemma sanitize_filename_example_refuted :
  sanitize_filename "Love/Hate Story" = "LoveHate_Story"
  /\ sanitize_filename "Love/Hate Story" <> "Love_Hate_Story".
Proof. split; [reflexivity | vm_compute; discriminate]. Qed.

(** C3 (amended): [sanitize_filename] removes every character of the set
    backslash, slash, star, question mark, colon, double quote, angle
    brackets and bar, turns every space into an underscore, keeps every
    other character and the order, and cuts nothing off: the result is the
    input filtered and mapped, its length is the input's minus the number of
    removed characters, and none of the removed characters or a space is
    left.  [Love/Hate Story] becomes [LoveHate_Story]. *)
Theorem sanitize_filename_contract (name : string) :
  list_ascii_of_string (sanitize_filename name)
  = map (fun c => if Ascii.eqb c " " then "_"%char else c)
      (filter (fun c => negb (is_invalid_char c))
         (list_ascii_of_string name))
  /\ sanitize_filename name = sanitize_spec name
  /\ String.length (sanitize_filename name)
     + Str.count is_invalid_char name = String.length name
  /\ (forall c, In c (list_ascii_of_string (sanitize_filename name)) ->
        is_invalid_char c = false /\ c <> " "%char)
  /\ sanitize_filename "Love/Hate Story" = "LoveHate_Story".
Proof.
  repeat split.
  - induction name as [|c s IH]; [reflexivity|].
    rewrite sanitize_filename_cons. simpl.
    destruct (is_invalid_char c); simpl; [exact IH | now rewrite IH].
  - unfold sanitize_spec.
    induction name as [|c s IH]; [reflexivity|].
    rewrite sanitize_filename_cons. simpl. unfold sanitize_char at 1.
    destruct (is_invalid_char c); simpl; [exact IH|].
    destruct (Ascii.eqb c " "); simpl; now rewrite IH.
  - induction name as [|c s IH]; [reflexivity|].
    rewrite sanitize_filename_cons. simpl.
    destruct (is_invalid_char c); simpl; lia.
  - revert c H.
    induction name as [|x s IH]; intros c H; [contradiction|].
    rewrite sanitize_filename_cons in H.
    destruct (is_invalid_char x) eqn:Ex; [now apply IH|].
    destruct H as [<- | H]; [|now apply IH].
    destruct (Ascii.eqb x " "); [reflexivity | exact Ex].
  - revert c H.
    induction name as [|x s IH]; intros c H; [contradiction|].
    rewrite sanitize_filename_cons in H.
    destruct (is_invalid_char x) eqn:Ex; [now apply IH|].
    destruct H as [<- | H]; [|now apply IH].
    destruct (Ascii.eqb x " ") eqn:Es; [discriminate|].
    now apply Ascii.eqb_neq.
Qed.

(** C10: [sanitize_filename] is idempotent. *)
Theorem sanitize_filename_idempotent (s : string) :
  sanitize_filename (sanitize_filename s) = sanitize_filename s.
Proof.
  induction s as [|c s IH]; [reflexivity|].
  rewrite sanitize_filename_cons.
  destruct (is_invalid_char c) eqn:Ec; [exact IH|].
  rewrite sanitize_filename_cons.
  destruct (Ascii.eqb c " ") eqn:Es.
  - destruct underscore_kept as [-> ->]. now rewrite IH.
  - rewrite Ec, Es. now rewrite IH.
Qed.

End Sanitize.

(** ** Traces and outcomes of computations *)

Section Computations.

Context {A B : Type}.

Lemma trace_bind (m : M A) (k : A -> M B) :
  trace (bind m k)
  = (trace m ++ match outcome m with
                | inr a => trace (k a)
                | inl _ => []
                end)%list.
Proof.
  destruct m as [t [e | a]]; simpl.
  - now rewrite app_nil_r.
  - now destruct (k a).
Qed.

Lemma outcome_bind (m : M A) (k : A -> M B) :
  outcome (bind m k)
  = match outcome m with
    | inr a => outcome (k a)
    | inl e => inl e
    end.
Proof.
  destruct m as [t [e | a]]; simpl; [reflexivity|]. now destruct (k a).
Qed.

Lemma in_trace_bind (ev : event) (m : M A) (k : A -> M B) :
  In ev (trace (bind m k)) ->
  In ev (trace m) \/ exists a, outcome m = inr a /\ In ev (trace (k a)).
Proof.
  rewrite trace_bind. intros H. apply in_app_or in H as [H | H]; [now left|].
  destruct (outcome m) as [e | a]; [contradiction|]. right. now exists a.
Qed.

Lemma trace_try_except (body : M A) (handler : exn -> M A) :
  trace (try_except body handler)
  = (trace body ++ match outcome body with
                   | inl e => trace (handler e)
                   | inr _ => []
                   end)%list.
Proof.
  destruct body as [t [e | a]]; simpl.
  - now destruct (handler e).
  - now rewrite app_nil_r.
Qed.

Lemma outcome_try_except (body : M A) (handler : exn -> M A) :
  outcome (try_except body handler)
  = match outcome body with
    | inl e => outcome (handler e)
    | inr a => inr a
    end.
Proof.
  destruct body as [t [e | a]]; simpl; [|reflexivity]. now destruct (handler e).
Qed.

End Computations.

Lemma M_eta {A : Type} (m : M A) : m = (trace m, outcome m).
Proof. now destruct m. Qed.

(** A loop whose body never raises runs over every item. *)
Lemma for_each_total {A : Type} (body : A -> M unit) (l : list A) :
  (forall x, outcome (body x) = inr tt) ->
  for_each body l = (flat_map (fun x => trace (body x)) l, inr tt).
Proof.
  intros Hbody. induction l as [|x l IH]; [reflexivity|].
  simpl. rewrite (M_eta (bind _ _)), trace_bind, outcome_bind, Hbody.
  now rewrite IH.
Qed.

Lemma in_trace_for_each {A : Type} (ev : event) (body : A -> M unit)
  (l : list A) :
  In ev (trace (for_each body l)) -> exists x, In x l /\ In ev (trace (body x)).
Proof.
  induction l as [|x l IH]; simpl; [contradiction|].
  intros H. apply in_trace_bind in H as [H | (_ & _ & H)].
  - exists x. auto.
  - destruct (IH H) as (y & Hy & Hev). exists y. auto.
Qed.

(** ** Grouping *)

Section DictAppend.

Context {V : Type}.

Lemma dict_append_keys_old (k : string) (v : V) (d : list (string * list V)) :
  In k (map fst d) -> map fst (dict_append k v d) = map fst d.
Proof.
  induction d as [|[k' vs] d IH]; simpl; [contradiction|].
  destruct (String.eqb_spec k' k) as [-> | Hne]; [reflexivity|].
  intros [H | H]; [contradiction|]. simpl. now rewrite IH.
Qed.

Lemma dict_append_keys_new (k : string) (v : V) (d : list (string * list V)) :
  ~ In k (map fst d) -> map fst (dict_append k v d) = (map fst d ++ [k])%list.
Proof.
  induction d as [|[k' vs] d IH]; simpl; [reflexivity|].
  intros H. destruct (String.eqb_spec k' k) as [-> | Hne]; [tauto|].
  simpl. rewrite IH; tauto.
Qed.

Lemma dict_append_In (k : string) (v : V) (d : list (string * list V))
  (k' : string) (g : list V) :
  NoDup (map fst d) ->
  In (k', g) (dict_append k v d) ->
  (k' <> k /\ In (k', g) d)
  \/ (k' = k /\ exists g0, In (k, g0) d /\ g = (g0 ++ [v])%list)
  \/ (k' = k /\ ~ In k (map fst d) /\ g = [v]).
Proof.
  induction d as [|[k0 vs] d IH]; simpl; intros Hnd H.
  - destruct H as [H | []]. inversion H; subst. right. right. tauto.
  - inversion Hnd as [|? ? Hk0 Hnd']; subst.
    destruct (String.eqb_spec k0 k) as [-> | Hne].
    + destruct H as [H | H].
      * inversion H; subst. right. left. split; [reflexivity|].
        exists vs. auto.
      * left. split; [|now right].
        intros ->. apply Hk0. change k with (fst (k, g)). now apply in_map.
    + destruct H as [H | H].
      * inversion H; subst. left. split; [exact Hne | now left].
      * destruct (IH Hnd' H) as [(Hk & Hin) | [(Hk & g0 & Hin & Hg)
                                                | (Hk & Hnew & Hg)]].
        -- left. auto.
        -- right. left. split; [exact Hk|]. exists g0. auto.
        -- right. right. repeat split; auto. intros [E | Hin]; auto.
Qed.

End DictAppend.

Section Grouping.

Variable field : song -> option string.

Lemma truthy_get_or (f : option string) :
  truthy f = true -> f = Some (get_or f "") /\ get_or f "" <> "".
Proof.
  destruct f as [v|]; simpl; [|discriminate].
  intros H. split; [reflexivity|]. intros ->. discriminate.
Qed.

Lemma in_group_truthy (k : string) (x : song) :
  in_group field k x = true -> truthy (field x) = true /\ get_or (field x) "" = k.
Proof.
  unfold in_group. intros H. apply andb_prop in H as [H1 H2].
  split; [exact H1 | now apply String.eqb_eq].
Qed.

Lemma group_songs_snoc (l : list song) (s : song) :
  group_songs field (l ++ [s])
  = if truthy (field s)
    then dict_append (get_or (field s) "") s (group_songs field l)
    else group_songs field l.
Proof. unfold group_songs. now rewrite fold_left_app. Qed.

Lemma filter_snoc {X : Type} (f : X -> bool) (l : list X) (x : X) :
  filter f (l ++ [x]) = (filter f l ++ if f x then [x] else [])%list.
Proof. rewrite filter_app. reflexivity. Qed.

Lemma filter_none {X : Type} (f : X -> bool) (l : list X) :
  (forall x, In x l -> f x = false) -> filter f l = [].
Proof.
  induction l as [|x l IH]; simpl; intros H; [reflexivity|].
  rewrite (H x (or_introl eq_refl)). apply IH. auto.
Qed.

(** What the grouping loop has built after the songs [l]: distinct keys,
    each with the songs of [l] that carry it, in the order of [l], and a
    key for every song whose field is set. *)
Lemma group_songs_invariant (l : list song) :
  NoDup (map fst (group_songs field l))
  /\ (forall k g, In (k, g) (group_songs field l) ->
        g = filter (in_group field k) l /\ g <> [])
  /\ (forall s, In s l -> truthy (field s) = true ->
        In (get_or (field s) "") (map fst (group_songs field l))).
Proof.
  induction l as [|s l (Hnd & Hsound & Hcomplete)] using rev_ind.
  - simpl. repeat split; try constructor; contradiction.
  - rewrite group_songs_snoc.
    destruct (truthy (field s)) eqn:Es.
    + set (k0 := get_or (field s) "").
      assert (Hs : in_group field k0 s = true).
      { unfold in_group. rewrite Es. apply String.eqb_refl. }
      destruct (in_dec string_dec k0 (map fst (group_songs field l)))
        as [Hin | Hnew].
      * repeat split.
        -- now rewrite dict_append_keys_old.
        -- destruct (dict_append_In _ _ _ _ _ Hnd H)
             as [(Hk & Hg) | [(-> & g0 & Hg & ->) | (_ & Habs & _)]];
             [| | contradiction].
           ++ rewrite filter_snoc.
              replace (in_group field k s) with false.
              ** rewrite app_nil_r. now apply Hsound.
              ** symmetry. apply not_true_is_false. intros E.
                 apply in_group_truthy in E as [_ E]. now apply Hk.
           ++ rewrite filter_snoc, Hs. f_equal. now apply Hsound.
        -- destruct (dict_append_In _ _ _ _ _ Hnd H)
             as [(Hk & Hg) | [(-> & g0 & Hg & ->) | (_ & Habs & _)]];
             [| | contradiction].
           ++ now apply Hsound in Hg.
           ++ now destruct g0.
        -- intros x Hx Hxt. rewrite dict_append_keys_old by exact Hin.
           apply in_app_or in Hx as [Hx | [<- | []]]; auto.
      * repeat split.
        -- rewrite dict_append_keys_new by exact Hnew.
           apply NoDup_app; [exact Hnd | repeat constructor; intros [] |].
           intros x Hx [<- | []]. now apply Hnew.
        -- destruct (dict_append_In _ _ _ _ _ Hnd H)
             as [(Hk & Hg) | [(-> & g0 & Hg & ->) | (-> & _ & ->)]].
           ++ rewrite filter_snoc.
              replace (in_group field k s) with false.
              ** rewrite app_nil_r. now apply Hsound.
              ** symmetry. apply not_true_is_false. intros E.
                 apply in_group_truthy in E as [_ E]. now apply Hk.
           ++ exfalso. apply Hnew. change k0 with (fst (k0, g0)).
              now apply in_map.
           ++ rewrite filter_snoc, Hs, filter_none; [reflexivity|].
              intros x Hx. apply not_true_is_false. intros E.
              apply in_group_truthy in E as [Ex <-].
              apply Hnew. now apply Hcomplete.
        -- destruct (dict_append_In _ _ _ _ _ Hnd H)
             as [(Hk & Hg) | [(-> & g0 & Hg & ->) | (-> & _ & ->)]].
           ++ now apply Hsound in Hg.
           ++ now destruct g0.
           ++ discriminate.
        -- intros x Hx Hxt. rewrite dict_append_keys_new by exact Hnew.
           apply in_or_app.
           apply in_app_or in Hx as [Hx | [<- | []]]; [left | right]; auto.
           now left.
    + repeat split; auto.
      * rewrite filter_snoc.
        replace (in_group field k s) with false.
        -- rewrite app_nil_r. now apply Hsound.
        -- unfold in_group. now rewrite Es.
      * now apply Hsound in H.
      * intros x Hx Hxt.
        apply in_app_or in Hx as [Hx | [<- | []]]; [auto | congruence].
Qed.

Lemma group_songs_sound (l : list song) (k : string) (g : list song) :
  In (k, g) (group_songs field l) ->
  g = filter (in_group field k) l /\ g <> [].
Proof. apply group_songs_invariant. Qed.

Lemma group_songs_complete (l : list song) (s : song) :
  In s l -> truthy (field s) = true ->
  exists g, In (get_or (field s) "", g) (group_songs field l) /\ In s g.
Proof.
  intros Hs Ht.
  destruct (group_songs_invariant l) as (_ & Hsound & Hcomplete).
  specialize (Hcomplete s Hs Ht).
  apply in_map_iff in Hcomplete as ([k g] & Hk & Hin). simpl in Hk. subst k.
  exists g. split; [exact Hin|].
  destruct (Hsound _ _ Hin) as [-> _].
  apply filter_In. split; [exact Hs|].
  unfold in_group. rewrite Ht. apply String.eqb_refl.
Qed.

Lemma hd_error_filter {X : Type} (f : X -> bool) (l : list X) :
  hd_error (filter f l) = find f l.
Proof.
  induction l as [|x l IH]; simpl; [reflexivity|]. now destruct (f x).
Qed.

Lemma find_pointwise {X : Type} (f g : X -> bool) (l : list X) :
  (forall x, f x = g x) -> find f l = find g l.
Proof.
  intros H. induction l as [|x l IH]; simpl; [reflexivity|].
  now rewrite H, IH.
Qed.

Lemma in_group_get_eq (k : string) (x : song) :
  k <> "" -> in_group field k x = get_eq (field x) k.
Proof.
  intros Hk. unfold in_group, truthy, get_eq.
  destruct (field x) as [v|]; simpl; [|reflexivity].
  destruct (String.eqb_spec v k) as [-> | Hne].
  - apply String.eqb_neq in Hk. now rewrite Hk.
  - apply andb_false_r.
Qed.

(** The first song of a group is the first song of the input that carries
    the group's key, and the key is not empty. *)
Lemma group_songs_first (l : list song) (k : string) (g : list song) :
  In (k, g) (group_songs field l) ->
  k <> ""
  /\ exists s, first_of g = Some s
               /\ find (fun x => get_eq (field x) k) l = Some s.
Proof.
  intros H. destruct (group_songs_sound l k g H) as [Hg Hne].
  assert (Hk : k <> "").
  { destruct g as [|x g']; [congruence|].
    assert (Hx : In x (filter (in_group field k) l))
      by (rewrite <- Hg; now left).
    apply filter_In in Hx as [_ Hx].
    apply in_group_truthy in Hx as [Hx <-].
    now apply truthy_get_or. }
  split; [exact Hk|].
  destruct g as [|x g'] eqn:Eg; [congruence|]. exists x. split; [reflexivity|].
  rewrite <- (find_pointwise (in_group field k)).
  - rewrite <- hd_error_filter, <- Hg. reflexivity.
  - intros y. now apply in_group_get_eq.
Qed.

End Grouping.

(** ** The stages of the run *)

Section Stages.

Variable env : environment.

Ltac run_step :=
  unfold try_except, dump_to, os_makedirs, json_load, print, emit, ret,
    raise, bind; simpl.

(** *** Song files *)

Lemma create_song_file_ok (dir : path) (s : song) (t : string) :
  title s = Some t -> t <> "Profile" ->
  let p := os_path_join dir (sanitize_filename t ++ ".json") in
  write_json env p (OfSong s) = None ->
  create_song_file env dir s = ([Write p (OfSong s)], inr tt).
Proof.
  intros Ht Hp p Hw. unfold create_song_file. rewrite Ht.
  apply String.eqb_neq in Hp. rewrite Hp. simpl. run_step.
  fold p. now rewrite Hw.
Qed.

Lemma create_song_file_failed (dir : path) (s : song) (t : string) (e : exn) :
  title s = Some t -> t <> "Profile" ->
  let p := os_path_join dir (sanitize_filename t ++ ".json") in
  write_json env p (OfSong s) = Some e ->
  create_song_file env dir s
  = ([WriteFailed p; Print (could_not_create "song" t e)], inr tt).
Proof.
  intros Ht Hp p Hw. unfold create_song_file. rewrite Ht.
  apply String.eqb_neq in Hp. rewrite Hp. simpl. run_step.
  fold p. now rewrite Hw.
Qed.

Lemma create_song_file_skip (dir : path) (s : song) :
  title s = None \/ title s = Some "Profile" ->
  create_song_file env dir s = ([], inr tt).
Proof.
  unfold create_song_file. now intros [-> | ->].
Qed.

Lemma create_song_file_outcome (dir : path) (s : song) :
  outcome (create_song_file env dir s) = inr tt.
Proof.
  destruct (title s) as [t|] eqn:Et;
    [|now rewrite create_song_file_skip by auto].
  destruct (String.eqb_spec t "Profile") as [-> | Hp];
    [now rewrite create_song_file_skip by auto|].
  destruct (write_json env (os_path_join dir (sanitize_filename t ++ ".json"))
              (OfSong s)) as [e|] eqn:Ew.
  - now rewrite (create_song_file_failed dir s t e).
  - now rewrite (create_song_file_ok dir s t).
Qed.

Lemma create_song_file_writes (dir p : path) (s : song) (v : dumped) :
  In (Write p v) (trace (create_song_file env dir s)) ->
  v = OfSong s
  /\ exists t, title s = Some t /\ t <> "Profile"
               /\ p = os_path_join dir (sanitize_filename t ++ ".json").
Proof.
  destruct (title s) as [t|] eqn:Et;
    [|now rewrite create_song_file_skip by auto].
  destruct (String.eqb_spec t "Profile") as [-> | Hp];
    [now rewrite create_song_file_skip by auto|].
  destruct (write_json env (os_path_join dir (sanitize_filename t ++ ".json"))
              (OfSong s)) as [e|] eqn:Ew.
  - rewrite (create_song_file_failed dir s t e) by assumption. simpl.
    intros [H | [H | []]]; discriminate.
  - rewrite (create_song_file_ok dir s t) by assumption. simpl.
    intros [H | []]. inversion H; subst. split; [reflexivity|].
    exists t. auto.
Qed.

Lemma create_song_files_run (songs_data : list song) (base_path : path) :
  create_song_files env songs_data base_path
  = (Print ("Creating individual files for "
            ++ Str.of_nat (List.length songs_data) ++ " songs...")
       :: flat_map
            (fun s => trace (create_song_file env
                               (os_path_join base_path "songs") s))
            songs_data
       ++ [Print "Song files created."],
     inr tt)%list.
Proof.
  unfold create_song_files.
  rewrite for_each_total by (intros; apply create_song_file_outcome).
  reflexivity.
Qed.

(** *** Album and artist files *)

Lemma create_album_file_ok (dir : path) (k : string) (g : list song) :
  let p := os_path_join dir (sanitize_filename k ++ ".json") in
  write_json env p (OfAlbum (make_album_data k g)) = None ->
  create_album_file env dir (k, g)
  = ([Write p (OfAlbum (make_album_data k g))], inr tt).
Proof. intros p Hw. unfold create_album_file. run_step. fold p. now rewrite Hw. Qed.

Lemma create_album_file_failed (dir : path) (k : string) (g : list song)
  (e : exn) :
  let p := os_path_join dir (sanitize_filename k ++ ".json") in
  write_json env p (OfAlbum (make_album_data k g)) = Some e ->
  create_album_file env dir (k, g)
  = ([WriteFailed p; Print (could_not_create "album" k e)], inr tt).
Proof. intros p Hw. unfold create_album_file. run_step. fold p. now rewrite Hw. Qed.

Lemma create_album_file_outcome (dir : path) (item : string * list song) :
  outcome (create_album_file env dir item) = inr tt.
Proof.
  destruct item as [k g].
  destruct (write_json env (os_path_join dir (sanitize_filename k ++ ".json"))
              (OfAlbum (make_album_data k g))) as [e|] eqn:Ew.
  - now rewrite (create_album_file_failed dir k g e).
  - now rewrite (create_album_file_ok dir k g).
Qed.

Lemma create_album_file_writes (dir p : path) (item : string * list song)
  (v : dumped) :
  In (Write p v) (trace (create_album_file env dir item)) ->
  v = OfAlbum (make_album_data (fst item) (snd item))
  /\ p = os_path_join dir (sanitize_filename (fst item) ++ ".json").
Proof.
  destruct item as [k g].
  destruct (write_json env (os_path_join dir (sanitize_filename k ++ ".json"))
              (OfAlbum (make_album_data k g))) as [e|] eqn:Ew.
  - rewrite (create_album_file_failed dir k g e) by assumption. simpl.
    intros [H | [H | []]]; discriminate.
  - rewrite (create_album_file_ok dir k g) by assumption. simpl.
    intros [H | []]. inversion H; subst. auto.
Qed.

Lemma create_album_files_run (songs_data : list song) (base_path : path) :
  create_album_files env songs_data base_path
  = (Print "Grouping songs by album and creating album files..."
       :: flat_map
            (fun item => trace (create_album_file env
                                  (os_path_join base_path "albums") item))
            (group_songs album songs_data)
       ++ [Print "Album files created."],
     inr tt)%list.
Proof.
  unfold create_album_files.
  rewrite for_each_total by (intros; apply create_album_file_outcome).
  reflexivity.
Qed.

Lemma create_artist_file_ok (dir : path) (k : string) (g : list song) :
  let p := os_path_join dir (sanitize_filename k ++ ".json") in
  write_json env p (OfArtist (make_artist_data k g)) = None ->
  create_artist_file env dir (k, g)
  = ([Write p (OfArtist (make_artist_data k g))], inr tt).
Proof. intros p Hw. unfold create_artist_file. run_step. fold p. now rewrite Hw. Qed.

Lemma create_artist_file_failed (dir : path) (k : string) (g : list song)
  (e : exn) :
  let p := os_path_join dir (sanitize_filename k ++ ".json") in
  write_json env p (OfArtist (make_artist_data k g)) = Some e ->
  create_artist_file env dir (k, g)
  = ([WriteFailed p; Print (could_not_create "artist" k e)], inr tt).
Proof. intros p Hw. unfold create_artist_file. run_step. fold p. now rewrite Hw. Qed.

Lemma create_artist_file_outcome (dir : path) (item : string * list song) :
  outcome (create_artist_file env dir item) = inr tt.
Proof.
  destruct item as [k g].
  destruct (write_json env (os_path_join dir (sanitize_filename k ++ ".json"))
              (OfArtist (make_artist_data k g))) as [e|] eqn:Ew.
  - now rewrite (create_artist_file_failed dir k g e).
  - now rewrite (create_artist_file_ok dir k g).
Qed.

Lemma create_artist_file_writes (dir p : path) (item : string * list song)
  (v : dumped) :
  In (Write p v) (trace (create_artist_file env dir item)) ->
  v = OfArtist (make_artist_data (fst item) (snd item))
  /\ p = os_path_join dir (sanitize_filename (fst item) ++ ".json").
Proof.
  destruct item as [k g].
  destruct (write_json env (os_path_join dir (sanitize_filename k ++ ".json"))
              (OfArtist (make_artist_data k g))) as [e|] eqn:Ew.
  - rewrite (create_artist_file_failed dir k g e) by assumption. simpl.
    intros [H | [H | []]]; discriminate.
  - rewrite (create_artist_file_ok dir k g) by assumption. simpl.
    intros [H | []]. inversion H; subst. auto.
Qed.

Lemma create_artist_files_run (songs_data : list song) (base_path : path) :
  create_artist_files env songs_data base_path
  = (Print "Grouping songs by artist and creating artist files..."
       :: flat_map
            (fun item => trace (create_artist_file env
                                  (os_path_join base_path "artists") item))
            (group_songs artist songs_data)
       ++ [Print "Artist files created."],
     inr tt)%list.
Proof.
  unfold create_artist_files.
  rewrite for_each_total by (intros; apply create_artist_file_outcome).
  reflexivity.
Qed.

End Stages.

Section Run.

Variable env : environment.

Lemma process_songbook_loaded (input_filepath output_dir : string)
  (data : document) :
  read_json env input_filepath = inr data ->
  process_songbook env input_filepath output_dir
  = (Print ("Loading songbook from: " ++ input_filepath)
       :: trace (after_load env data output_dir),
     outcome (after_load env data output_dir)).
Proof.
  intros Hr.
  transitivity (print ("Loading songbook from: " ++ input_filepath) ;;
                after_load env data output_dir).
  - unfold process_songbook, json_load. rewrite Hr. reflexivity.
  - unfold bind, print, emit.
    destruct (after_load env data output_dir) as [t r]. reflexivity.
Qed.

Lemma process_songbook_load_failed (input_filepath output_dir : string)
  (e : exn) :
  read_json env input_filepath = inl e ->
  process_songbook env input_filepath output_dir
  = ([Print ("Loading songbook from: " ++ input_filepath);
      Print (load_diagnostic input_filepath e)],
     inr tt).
Proof.
  intros Hr. unfold process_songbook, json_load. now rewrite Hr.
Qed.

(** Every event of the run after loading belongs to one of its stages. *)
Lemma in_trace_after_load (ev : event) (data : document) (output_dir : string) :
  In ev (trace (after_load env data output_dir)) ->
  let songs_only := songs_only_of (get_songs data) in
  In ev (trace (create_directories env [output_dir]))
  \/ In ev (trace (create_song_files env songs_only [output_dir]))
  \/ In ev (trace (create_album_files env songs_only [output_dir]))
  \/ In ev (trace (create_artist_files env songs_only [output_dir]))
  \/ In ev (trace (create_profile_and_metadata_files env data [output_dir]))
  \/ In ev (trace (create_catalog_file env songs_only [output_dir]))
  \/ exists line, ev = Print line.
Proof.
  unfold after_load. intros H. cbv zeta.
  repeat (apply in_trace_bind in H as [H | (_ & _ & H)]; [tauto|]).
  do 6 right. simpl in H. destruct H as [<- | [<- | []]]; eauto.
Qed.

Lemma create_directories_writes (base_path p : path) (v : dumped) :
  ~ In (Write p v) (trace (create_directories env base_path)).
Proof.
  unfold create_directories, os_makedirs. intros H.
  repeat (apply in_trace_bind in H as [H | (_ & _ & H)];
          [ try (destruct (makedirs env _)); simpl in H;
            intuition discriminate |]).
  simpl in H. intuition discriminate.
Qed.

Lemma create_profile_and_metadata_files_writes (data : document)
  (base_path p : path) (v : dumped) :
  In (Write p v) (trace (create_profile_and_metadata_files env data base_path)) ->
  (exists metadata, doc_metadata data = Some metadata
                    /\ v = OfJson metadata
                    /\ p = os_path_join base_path "metadata.json")
  \/ (exists profile, find_profile data = Some profile
                      /\ v = OfSong profile
                      /\ p = os_path_join base_path "artist_profile.json").
Proof.
  unfold create_profile_and_metadata_files, dump_to. intros H.
  apply in_trace_bind in H as [H | (_ & _ & H)];
    [simpl in H; intuition discriminate|].
  apply in_trace_bind in H as [H | (_ & _ & H)].
  - left. destruct (doc_metadata data) as [m|]; [|contradiction].
    exists m. split; [reflexivity|].
    destruct (write_json env _ _); simpl in H.
    + intuition discriminate.
    + destruct H as [H | [H | []]]; [|discriminate].
      inversion H; subst. auto.
  - right. destruct (find_profile data) as [pr|]; [|contradiction].
    exists pr. split; [reflexivity|].
    destruct (write_json env _ _); simpl in H.
    + intuition discriminate.
    + destruct H as [H | [H | []]]; [|discriminate].
      inversion H; subst. auto.
Qed.

Lemma create_catalog_file_writes (songs_data : list song)
  (base_path p : path) (v : dumped) :
  In (Write p v) (trace (create_catalog_file env songs_data base_path)) ->
  v = OfCatalog (build_catalog songs_data)
  /\ p = os_path_join base_path "catalog.json".
Proof.
  unfold create_catalog_file, dump_to. intros H.
  apply in_trace_bind in H as [H | (_ & _ & H)];
    [simpl in H; intuition discriminate|].
  destruct (write_json env _ _); simpl in H.
  - intuition discriminate.
  - destruct H as [H | [H | []]]; [|discriminate].
    inversion H; subst. auto.
Qed.

(** Where each kind of written value comes from. *)
Lemma create_song_files_writes (songs_data : list song)
  (base_path p : path) (v : dumped) :
  In (Write p v) (trace (create_song_files env songs_data base_path)) ->
  exists s t, In s songs_data /\ v = OfSong s /\ title s = Some t
              /\ t <> "Profile" /\ p = item_path base_path "songs" t.
Proof.
  rewrite create_song_files_run. simpl. intros [H | H]; [discriminate|].
  apply in_app_or in H as [H | [H | []]]; [|discriminate].
  apply in_flat_map in H as (s & Hs & H).
  apply create_song_file_writes in H as (-> & t & Ht & Hp & ->).
  exists s, t. auto.
Qed.

Lemma create_album_files_writes (songs_data : list song)
  (base_path p : path) (v : dumped) :
  In (Write p v) (trace (create_album_files env songs_data base_path)) ->
  exists k g, In (k, g) (group_songs album songs_data)
              /\ v = OfAlbum (make_album_data k g)
              /\ p = item_path base_path "albums" k.
Proof.
  rewrite create_album_files_run. simpl. intros [H | H]; [discriminate|].
  apply in_app_or in H as [H | [H | []]]; [|discriminate].
  apply in_flat_map in H as ([k g] & Hs & H).
  apply create_album_file_writes in H as (-> & ->).
  exists k, g. auto.
Qed.

Lemma create_artist_files_writes (songs_data : list song)
  (base_path p : path) (v : dumped) :
  In (Write p v) (trace (create_artist_files env songs_data base_path)) ->
  exists k g, In (k, g) (group_songs artist songs_data)
              /\ v = OfArtist (make_artist_data k g)
              /\ p = item_path base_path "artists" k.
Proof.
  rewrite create_artist_files_run. simpl. intros [H | H]; [discriminate|].
  apply in_app_or in H as [H | [H | []]]; [|discriminate].
  apply in_flat_map in H as ([k g] & Hs & H).
  apply create_artist_file_writes in H as (-> & ->).
  exists k, g. auto.
Qed.

End Run.

(** ** Every file the run writes *)

Section Writes.

Variable env : environment.

Lemma process_songbook_writes (input_filepath output_dir : string)
  (p : path) (v : dumped) :
  In (Write p v) (trace (process_songbook env input_filepath output_dir)) ->
  exists data, read_json env input_filepath = inr data
               /\ In (Write p v) (trace (after_load env data output_dir)).
Proof.
  destruct (read_json env input_filepath) as [e | data] eqn:Hr.
  - rewrite (process_songbook_load_failed env _ _ e Hr). simpl.
    intros [H | [H | []]]; discriminate.
  - rewrite (process_songbook_loaded env _ _ data Hr). simpl.
    intros [H | H]; [discriminate|]. now exists data.
Qed.

(** The classification of the writes of a run: a song file, an album file,
    an artist file, the metadata, the profile or the catalog. *)
Lemma after_load_writes (data : document) (output_dir : string)
  (p : path) (v : dumped) :
  In (Write p v) (trace (after_load env data output_dir)) ->
  written_by data output_dir p v.
Proof.
  intros H. apply in_trace_after_load in H. cbv zeta in H.
  destruct H as [H | [H | [H | [H | [H | [H | (line & H)]]]]]].
  - now apply create_directories_writes in H.
  - apply create_song_files_writes in H as (s & t & Hs & -> & Ht & Hp & ->).
    now apply ByCreateSongFiles.
  - apply create_album_files_writes in H as (k & g & Hin & -> & ->).
    now apply ByCreateAlbumFiles.
  - apply create_artist_files_writes in H as (k & g & Hin & -> & ->).
    now apply ByCreateArtistFiles.
  - apply create_profile_and_metadata_files_writes in H
      as [(m & Hm & -> & ->) | (pr & Hpr & -> & ->)].
    + now apply ByMetadata.
    + now apply ByProfile.
  - apply create_catalog_file_writes in H as [-> ->]. apply ByCreateCatalogFile.
  - discriminate.
Qed.

End Writes.

(** ** Filtering and the catalog *)

Section Catalog.

Lemma get_eq_true (f : option string) (v : string) :
  get_eq f v = true <-> f = Some v.
Proof.
  destruct f as [x|]; simpl; [|split; discriminate].
  rewrite String.eqb_eq. split; [now intros -> | now intros [= ->]].
Qed.

Lemma songs_only_of_In (s : song) (l : list song) :
  In s (songs_only_of l) <-> In s l /\ title s <> Some "Profile".
Proof.
  unfold songs_only_of. rewrite filter_In, negb_true_iff.
  rewrite <- not_true_iff_false, get_eq_true. tauto.
Qed.

Lemma group_songs_member (field : song -> option string) (l : list song)
  (k : string) (g : list song) (s : song) :
  In (k, g) (group_songs field l) -> In s g -> In s l /\ field s = Some k.
Proof.
  intros Hg Hs. destruct (group_songs_sound field l k g Hg) as [-> _].
  apply filter_In in Hs as [Hs Hk]. split; [exact Hs|].
  apply in_group_truthy in Hk as [Ht <-]. now apply truthy_get_or.
Qed.

Lemma fold_left_skip {X Y : Type} (f : Y -> X -> Y) (keep : X -> bool)
  (l : list X) (a : Y) :
  (forall x b, keep x = false -> f b x = b) ->
  fold_left f (filter keep l) a = fold_left f l a.
Proof.
  intros Hskip. revert a.
  induction l as [|x l IH]; intros a; simpl; [reflexivity|].
  destruct (keep x) eqn:E; simpl; [apply IH|].
  rewrite Hskip by exact E. apply IH.
Qed.

Lemma flat_map_skip {X Y : Type} (f : X -> list Y) (keep : X -> bool)
  (l : list X) :
  (forall x, keep x = false -> f x = []) ->
  flat_map f (filter keep l) = flat_map f l.
Proof.
  intros Hskip. induction l as [|x l IH]; simpl; [reflexivity|].
  destruct (keep x) eqn:E; simpl; [now rewrite IH|].
  now rewrite Hskip, IH.
Qed.

Lemma catalog_add_untitled (c : catalog) (s : song) :
  has_title s = false -> catalog_add c s = c.
Proof.
  unfold has_title, catalog_add. now destruct (title s).
Qed.

Lemma catalog_add_profile (c : catalog) (s : song) :
  is_profile s = true -> catalog_add c s = c.
Proof.
  unfold is_profile, catalog_add. intros ->. now rewrite orb_true_r.
Qed.

Lemma catalog_songs_fold (l : list song) (c : catalog) :
  catalog_songs (fold_left catalog_add l c) = catalog_songs c.
Proof.
  revert c. induction l as [|s l IH]; intros c; simpl; [reflexivity|].
  rewrite IH. unfold catalog_add.
  now destruct (negb (truthy (title s)) || get_eq (title s) "Profile").
Qed.

Lemma build_catalog_songs (l : list song) :
  catalog_songs (build_catalog l) = sorted (catalog_titles l).
Proof.
  unfold build_catalog, catalog_sort. simpl. now rewrite catalog_songs_fold.
Qed.

Lemma catalog_titles_eligible (l : list song) :
  catalog_titles l = eligible_titles l.
Proof.
  unfold catalog_titles, eligible_titles, has_title, is_profile, title_key.
  induction l as [|s l IH]; simpl; [reflexivity|].
  destruct (title s) as [t|] eqn:Et; simpl; [|exact IH].
  destruct (t =? "Profile"); simpl; [exact IH|].
  now rewrite Et, IH.
Qed.

Lemma catalog_titles_songs_only (l : list song) :
  catalog_titles (songs_only_of l) = catalog_titles l.
Proof.
  unfold catalog_titles, songs_only_of. apply flat_map_skip.
  intros s Hs. apply negb_false_iff in Hs.
  destruct (title s) as [t|]; [|reflexivity]. simpl in Hs. now rewrite Hs.
Qed.

(** Records without a title leave the catalog as it is. *)
Lemma build_catalog_titled (l : list song) :
  build_catalog (filter has_title l) = build_catalog l.
Proof.
  assert (Ht : catalog_titles (filter has_title l) = catalog_titles l).
  { unfold catalog_titles. apply flat_map_skip.
    intros s Hs. unfold has_title in Hs. now destruct (title s). }
  unfold build_catalog. rewrite Ht.
  now rewrite fold_left_skip by (intros; now apply catalog_add_untitled).
Qed.

(** Records titled [Profile] leave the catalog as it is. *)
Lemma build_catalog_songs_only (l : list song) :
  build_catalog (songs_only_of l) = build_catalog l.
Proof.
  unfold build_catalog. rewrite catalog_titles_songs_only.
  unfold songs_only_of. rewrite fold_left_skip; [reflexivity|].
  intros s b Hs. apply negb_false_iff in Hs. now apply catalog_add_profile.
Qed.

Lemma dict_append_member {V : Type} (k : string) (v : V)
  (d : list (string * list V)) (k' : string) (g : list V) (x : V) :
  In (k', g) (dict_append k v d) -> In x g ->
  x = v \/ exists g0, In (k', g0) d /\ In x g0.
Proof.
  induction d as [|[k0 vs] d IH]; simpl; intros H Hx.
  - destruct H as [[= <- <-] | []]. destruct Hx as [<- | []]. now left.
  - destruct (k0 =? k).
    + destruct H as [[= <- <-] | H].
      * apply in_app_or in Hx as [Hx | [<- | []]]; [right | now left].
        exists vs. auto.
      * right. exists g. auto.
    + destruct H as [[= <- <-] | H].
      * right. exists vs. auto.
      * destruct (IH H Hx) as [-> | (g0 & Hg0 & Hx0)]; [now left|].
        right. exists g0. auto.
Qed.

Lemma album_append_member (k a t : string) (d : list (string * album_entry))
  (k' : string) (e : album_entry) (x : string) :
  In (k', e) (album_append k a t d) -> In x (entry_songs e) ->
  x = t \/ exists e0, In (k', e0) d /\ In x (entry_songs e0).
Proof.
  induction d as [|[k0 e1] d IH]; simpl; intros H Hx.
  - destruct H as [[= <- <-] | []]. destruct Hx as [<- | []]. now left.
  - destruct (k0 =? k).
    + destruct H as [[= <- <-] | H].
      * simpl in Hx.
        apply in_app_or in Hx as [Hx | [<- | []]]; [right | now left].
        exists e1. auto.
      * right. exists e. auto.
    + destruct H as [[= <- <-] | H].
      * right. exists e1. auto.
      * destruct (IH H Hx) as [-> | (e0 & He0 & Hx0)]; [now left|].
        right. exists e0. auto.
Qed.

Lemma catalog_add_listed (l : list song) (c : catalog) (s : song) :
  In s l ->
  (forall t, (exists k ts, In (k, ts) (catalog_artists c) /\ In t ts)
             \/ (exists k e, In (k, e) (catalog_albums c)
                             /\ In t (entry_songs e)) ->
             listed_from l t) ->
  forall t, (exists k ts, In (k, ts) (catalog_artists (catalog_add c s))
                          /\ In t ts)
            \/ (exists k e, In (k, e) (catalog_albums (catalog_add c s))
                            /\ In t (entry_songs e)) ->
            listed_from l t.
Proof.
  intros Hs Hc t. unfold catalog_add.
  destruct (negb (truthy (title s)) || get_eq (title s) "Profile") eqn:E;
    [apply Hc|].
  apply orb_false_elim in E as [E1 E2]. apply negb_false_iff in E1.
  apply truthy_get_or in E1 as [Et _]. simpl.
  assert (Hnew : listed_from l (get_or (title s) "")).
  { split; [|now exists s].
    intros Hp. rewrite Et in E2. simpl in E2. rewrite Hp in E2. discriminate. }
  intros [(k & ts & Hin & Ht) | (k & e & Hin & Ht)].
  - destruct (dict_append_member _ _ _ _ _ _ Hin Ht) as [-> | (g0 & H0 & Hx)];
      [exact Hnew|].
    apply Hc. left. eauto.
  - destruct (album_append_member _ _ _ _ _ _ _ Hin Ht)
      as [-> | (g0 & H0 & Hx)]; [exact Hnew|].
    apply Hc. right. eauto.
Qed.

Lemma fold_catalog_add_listed (l l' : list song) (c : catalog) :
  incl l' l ->
  (forall t, (exists k ts, In (k, ts) (catalog_artists c) /\ In t ts)
             \/ (exists k e, In (k, e) (catalog_albums c)
                             /\ In t (entry_songs e)) ->
             listed_from l t) ->
  forall t, (exists k ts,
               In (k, ts) (catalog_artists (fold_left catalog_add l' c))
               /\ In t ts)
            \/ (exists k e,
                  In (k, e) (catalog_albums (fold_left catalog_add l' c))
                  /\ In t (entry_songs e)) ->
            listed_from l t.
Proof.
  revert c. induction l' as [|s l' IH]; intros c Hincl Hc; simpl;
    [exact Hc|].
  apply IH.
  - intros x Hx. apply Hincl. now right.
  - apply catalog_add_listed; [|exact Hc]. apply Hincl. now left.
Qed.

Lemma build_catalog_mentions (l : list song) (t : string) :
  catalog_mentions (build_catalog l) t -> listed_from l t.
Proof.
  intros [H | H].
  - rewrite build_catalog_songs in H.
    apply (Permutation_in _ (sorted_perm _)) in H.
    unfold catalog_titles in H. apply in_flat_map in H as (s & Hs & Ht).
    destruct (title s) as [t'|] eqn:Et; [|contradiction].
    destruct (String.eqb_spec t' "Profile") as [-> | Hp]; [contradiction|].
    destruct Ht as [<- | []]. split; [exact Hp | now exists s].
  - unfold build_catalog in H.
    apply (fold_catalog_add_listed l l
             {| catalog_artists := []; catalog_albums := [];
                catalog_songs := sorted (catalog_titles l) |}).
    + apply incl_refl.
    + simpl. intros t0 [(k & ts & [] & _) | (k & e & [] & _)].
    + unfold catalog_sort in H. simpl in H.
      destruct H as [(k & ts & Hin & Ht) | (k & e & Hin & Ht)].
      * apply in_map_iff in Hin as ([k0 ts0] & [= <- <-] & Hin).
        apply (Permutation_in _ (sorted_perm _)) in Ht. left. eauto.
      * apply in_map_iff in Hin as ([k0 e0] & [= <- <-] & Hin).
        simpl in Ht. apply (Permutation_in _ (sorted_perm _)) in Ht.
        right. eauto.
Qed.

End Catalog.

(** ** Outcomes of the run *)

Section Outcomes.

Variable env : environment.

Lemma in_trace_bind_l {A B : Type} (ev : event) (m : M A) (k : A -> M B) :
  In ev (trace m) -> In ev (trace (bind m k)).
Proof. rewrite trace_bind. intros H. apply in_or_app. now left. Qed.

Lemma in_trace_bind_r {A B : Type} (ev : event) (m : M A) (k : A -> M B)
  (a : A) :
  outcome m = inr a -> In ev (trace (k a)) -> In ev (trace (bind m k)).
Proof.
  rewrite trace_bind. intros -> H. apply in_or_app. now right.
Qed.

Lemma outcome_unit (m : M unit) (u : unit) :
  outcome m = inr u -> outcome m = inr tt.
Proof. now destruct u. Qed.

(** The run after loading raises exactly when creating the directories,
    extracting the profile and the metadata, or writing the catalog does. *)
Lemma after_load_outcome (data : document) (output_dir : string) :
  outcome (after_load env data output_dir)
  = match outcome (create_directories env [output_dir]) with
    | inl e => inl e
    | inr _ =>
        match outcome (create_profile_and_metadata_files env data
                         [output_dir]) with
        | inl e => inl e
        | inr _ =>
            match outcome (create_catalog_file env
                             (songs_only_of (get_songs data))
                             [output_dir]) with
            | inl e => inl e
            | inr _ => inr tt
            end
        end
    end.
Proof.
  unfold after_load. cbv zeta. repeat rewrite outcome_bind.
  rewrite create_song_files_run, create_album_files_run,
    create_artist_files_run. simpl.
  destruct (outcome (create_directories env [output_dir])); [reflexivity|].
  destruct (outcome (create_profile_and_metadata_files env data _));
    [reflexivity|].
  now destruct (outcome (create_catalog_file env _ _)).
Qed.

Lemma in_trace_after_load_profile (ev : event) (data : document)
  (output_dir : string) :
  outcome (create_directories env [output_dir]) = inr tt ->
  In ev (trace (create_profile_and_metadata_files env data [output_dir])) ->
  In ev (trace (after_load env data output_dir)).
Proof.
  intros Hd H. unfold after_load. cbv zeta.
  apply (in_trace_bind_r _ _ _ tt Hd).
  apply (in_trace_bind_r _ _ _ tt); [now rewrite create_song_files_run|].
  apply (in_trace_bind_r _ _ _ tt); [now rewrite create_album_files_run|].
  apply (in_trace_bind_r _ _ _ tt); [now rewrite create_artist_files_run|].
  now apply in_trace_bind_l.
Qed.

Lemma in_trace_after_load_catalog (ev : event) (data : document)
  (output_dir : string) :
  outcome (create_directories env [output_dir]) = inr tt ->
  outcome (create_profile_and_metadata_files env data [output_dir]) = inr tt ->
  In ev (trace (create_catalog_file env (songs_only_of (get_songs data))
                  [output_dir])) ->
  In ev (trace (after_load env data output_dir)).
Proof.
  intros Hd Hp H. unfold after_load. cbv zeta.
  apply (in_trace_bind_r _ _ _ tt Hd).
  apply (in_trace_bind_r _ _ _ tt); [now rewrite create_song_files_run|].
  apply (in_trace_bind_r _ _ _ tt); [now rewrite create_album_files_run|].
  apply (in_trace_bind_r _ _ _ tt); [now rewrite create_artist_files_run|].
  apply (in_trace_bind_r _ _ _ tt Hp).
  now apply in_trace_bind_l.
Qed.

Lemma after_load_ok (data : document) (output_dir : string) :
  outcome (after_load env data output_dir) = inr tt ->
  outcome (create_directories env [output_dir]) = inr tt
  /\ outcome (create_profile_and_metadata_files env data [output_dir]) = inr tt
  /\ outcome (create_catalog_file env (songs_only_of (get_songs data))
                [output_dir]) = inr tt.
Proof.
  rewrite after_load_outcome.
  destruct (outcome (create_directories env [output_dir])) as [|[]];
    [discriminate|].
  destruct (outcome (create_profile_and_metadata_files env data _)) as [|[]];
    [discriminate|].
  destruct (outcome (create_catalog_file env _ _)) as [|[]]; [discriminate|].
  auto.
Qed.

(** *** The profile and metadata stage *)

Lemma create_profile_and_metadata_files_metadata_failed (data : document)
  (base_path : path) (metadata : json) (e : exn) :
  doc_metadata data = Some metadata ->
  write_json env (os_path_join base_path "metadata.json") (OfJson metadata)
  = Some e ->
  create_profile_and_metadata_files env data base_path
  = ([Print "Extracting profile and metadata...";
      WriteFailed (os_path_join base_path "metadata.json")],
     inl e).
Proof.
  intros Hm Hw. unfold create_profile_and_metadata_files, dump_to.
  now rewrite Hm, Hw.
Qed.

Lemma create_profile_and_metadata_files_profile_failed (data : document)
  (base_path : path) (profile : song) (e : exn) :
  match doc_metadata data with
  | Some metadata =>
      write_json env (os_path_join base_path "metadata.json") (OfJson metadata)
      = None
  | None => True
  end ->
  find_profile data = Some profile ->
  write_json env (os_path_join base_path "artist_profile.json")
    (OfSong profile) = Some e ->
  outcome (create_profile_and_metadata_files env data base_path) = inl e
  /\ forall p v, In (Write p v)
                   (trace (create_profile_and_metadata_files env data
                             base_path)) ->
                 p = os_path_join base_path "metadata.json".
Proof.
  intros Hm Hf Hw. unfold create_profile_and_metadata_files, dump_to.
  rewrite Hf, Hw. destruct (doc_metadata data) as [m|].
  - rewrite Hm. simpl. split; [reflexivity|].
    intros p v [H | [H | [H | [H | []]]]]; try discriminate.
    now inversion H.
  - simpl. split; [reflexivity|].
    intros p v [H | [H | []]]; discriminate.
Qed.

Lemma create_profile_and_metadata_files_profile_written (data : document)
  (base_path : path) (profile : song) :
  outcome (create_profile_and_metadata_files env data base_path) = inr tt ->
  find_profile data = Some profile ->
  In (Write (os_path_join base_path "artist_profile.json") (OfSong profile))
    (trace (create_profile_and_metadata_files env data base_path)).
Proof.
  unfold create_profile_and_metadata_files, dump_to. intros Ho Hf.
  rewrite Hf in *.
  destruct (doc_metadata data) as [m|];
    [destruct (write_json env (os_path_join base_path "metadata.json") _)|];
    destruct (write_json env (os_path_join base_path "artist_profile.json") _);
    simpl in *; try discriminate; tauto.
Qed.

(** *** The catalog stage *)

Lemma create_catalog_file_failed (songs_data : list song) (base_path : path)
  (e : exn) :
  write_json env (os_path_join base_path "catalog.json")
    (OfCatalog (build_catalog songs_data)) = Some e ->
  create_catalog_file env songs_data base_path
  = ([Print "Creating master catalog file...";
      WriteFailed (os_path_join base_path "catalog.json")],
     inl e).
Proof.
  intros Hw. unfold create_catalog_file, dump_to. now rewrite Hw.
Qed.

Lemma create_catalog_file_written (songs_data : list song)
  (base_path : path) :
  outcome (create_catalog_file env songs_data base_path) = inr tt ->
  In (Write (os_path_join base_path "catalog.json")
        (OfCatalog (build_catalog songs_data)))
    (trace (create_catalog_file env songs_data base_path)).
Proof.
  unfold create_catalog_file, dump_to.
  destruct (write_json env _ _); simpl; [discriminate | tauto].
Qed.

(** When no directory and no file refuses to be written, the run ends
    without an exception, whatever the input. *)
Lemma process_songbook_completes (input_filepath output_dir : string) :
  (forall dir, makedirs env dir = None) ->
  (forall p v, write_json env p v = None) ->
  outcome (process_songbook env input_filepath output_dir) = inr tt.
Proof.
  intros Hmk Hw.
  destruct (read_json env input_filepath) as [e | data] eqn:Hr.
  - now rewrite (process_songbook_load_failed env _ _ e Hr).
  - rewrite (process_songbook_loaded env _ _ data Hr). simpl.
    rewrite after_load_outcome.
    unfold create_directories, os_makedirs. rewrite !Hmk. simpl.
    unfold create_profile_and_metadata_files, create_catalog_file, dump_to.
    rewrite Hw.
    destruct (doc_metadata data); destruct (find_profile data);
      rewrite ?Hw; reflexivity.
Qed.

End Outcomes.

Lemma find_the_only {X : Type} (f : X -> bool) (l : list X) (x : X) :
  In x l -> f x = true -> List.length (filter f l) = 1 -> find f l = Some x.
Proof.
  intros Hx Hf Hlen. rewrite <- hd_error_filter.
  assert (Hin : In x (filter f l)) by (apply filter_In; auto).
  destruct (filter f l) as [|y [|z r]]; try discriminate.
  destruct Hin as [-> | []]. reflexivity.
Qed.

(** ** The record titled [Profile] *)

Section Profile.

Lemma item_path_not_root_file (output_dir dir name file : string) :
  [output_dir; file] <> item_path [output_dir] dir name.
Proof. unfold item_path, os_path_join. simpl. discriminate. Qed.

Lemma written_by_keeps_profile_out (data : document) (output_dir : string)
  (p : path) (v : dumped) :
  written_by data output_dir p v -> keeps_profile_out data output_dir p v.
Proof.
  intros [s t Hs Ht Hp | k g Hg | k g Hg | m Hm | pr Hpr | ]; simpl.
  - intros E. congruence.
  - intros s Hs. apply sorted_by_In in Hs.
    destruct (group_songs_member _ _ _ _ _ Hg Hs) as [Hin _].
    now apply songs_only_of_In in Hin.
  - intros s Hs. apply sorted_by_In in Hs.
    destruct (group_songs_member _ _ _ _ _ Hg Hs) as [Hin _].
    now apply songs_only_of_In in Hin.
  - exact I.
  - intros _. split; [reflexivity|].
    intros dir name. apply item_path_not_root_file.
  - split; [reflexivity|].
    intros t Ht. now apply build_catalog_mentions in Ht as [Hp _].
Qed.

End Profile.

(** C1: a record titled [Profile] is written to no file under [songs],
    [albums] or [artists] and contributes nothing to the catalog: a dump
    of such a record goes to [artist_profile.json] only, no album or artist
    file has it among its songs, and the catalog written is the catalog of
    the records not titled [Profile] and lists no title [Profile].  When
    the run ends without an exception and the record is the only one of
    the input titled [Profile], it is written as it is to
    [artist_profile.json]. *)
Theorem profile_record_only_in_profile_file (env : environment)
  (input_filepath output_dir : string) (data : document) :
  read_json env input_filepath = inr data ->
  (forall p v,
      In (Write p v) (trace (process_songbook env input_filepath output_dir)) ->
      keeps_profile_out data output_dir p v)
  /\ (forall r,
         outcome (process_songbook env input_filepath output_dir) = inr tt ->
         In r (get_songs data) ->
         title r = Some "Profile" ->
         List.length (filter is_profile (get_songs data)) = 1 ->
         In (Write [output_dir; "artist_profile.json"] (OfSong r))
           (trace (process_songbook env input_filepath output_dir))).
Proof.
  intros Hr. rewrite (process_songbook_loaded env _ _ data Hr). split.
  - intros p v [H | H]; [discriminate|].
    now apply written_by_keeps_profile_out, (after_load_writes env).
  - simpl. intros r Hok Hin Ht Hone. right.
    apply after_load_ok in Hok as (Hd & Hp & _).
    apply in_trace_after_load_profile; [exact Hd|].
    apply (create_profile_and_metadata_files_profile_written env data
             [output_dir] r Hp).
    apply find_the_only; [exact Hin | | exact Hone].
    unfold is_profile. now apply get_eq_true.
Qed.

Lemma profile_record_only_in_profile_file_witness :
  In (Write ["out"; "artist_profile.json"] (OfSong Sample.profile))
    (trace (process_songbook (Sample.all_fine Sample.songbook)
              "songbook.json" "out")).
Proof.
  apply (proj2 (profile_record_only_in_profile_file
                  (Sample.all_fine Sample.songbook) "songbook.json" "out"
                  Sample.songbook eq_refl) Sample.profile).
  - reflexivity.
  - simpl. tauto.
  - reflexivity.
  - reflexivity.
Defined.

(** ** Records without a title *)

Section Untitled.

Lemma find_profile_title (data : document) (pr : song) :
  find_profile data = Some pr -> title pr = Some "Profile".
Proof.
  unfold find_profile. intros H. apply find_some in H as [_ H].
  now apply get_eq_true.
Qed.

Lemma untitled_in_songs_only (data : document) (s : song) :
  In s (get_songs data) -> title s = None ->
  In s (songs_only_of (get_songs data)).
Proof.
  intros Hin Ht. apply songs_only_of_In. split; [exact Hin | congruence].
Qed.

Lemma group_has_member (field : song -> option string) (l : list song)
  (k : string) (g : list song) (s : song) :
  In (k, g) (group_songs field l) -> In s l -> field s = Some k -> In s g.
Proof.
  intros Hg Hs Hk.
  destruct (group_songs_first field l k g Hg) as [Hne _].
  destruct (group_songs_sound field l k g Hg) as [-> _].
  apply filter_In. split; [exact Hs|].
  rewrite in_group_get_eq by exact Hne. now apply get_eq_true.
Qed.

End Untitled.

(** C2 as the specification states it does not hold: a record without a
    title that has an album is a member of the album file's [songs]. *)
Lemma untitled_record_in_album_file :
  exists (env : environment) (input_filepath output_dir : string)
         (data : document) (s : song) (p : path) (v : dumped),
    read_json env input_filepath = inr data
    /\ In s (get_songs data) /\ title s = None
    /\ In (Write p v)
         (trace (process_songbook env input_filepath output_dir))
    /\ ~ untitled_excluded_from data s v.
Proof.
  exists (Sample.all_fine Sample.songbook_with_untitled),
    "songbook.json", "out", Sample.songbook_with_untitled, Sample.untitled,
    ["out"; "albums"; "Z.json"],
    (OfAlbum {| album_title := "Z";
                album_artist := "X";
                album_song_count := 2;
                album_songs := [Sample.untitled; Sample.song_B] |}).
  split; [reflexivity|].
  split; [simpl; tauto|].
  split; [reflexivity|].
  split; [vm_compute; tauto|].
  simpl. tauto.
Qed.

(** C2 (amended): a record without a [title] key is dumped to no song file
    (nor to the profile file) and the catalog written is the catalog of the
    records that have a title; it is nevertheless a member of the [songs]
    of the album file of its album and of the artist file of its artist,
    whenever those files are written. *)
Theorem untitled_record_excluded (env : environment)
  (input_filepath output_dir : string) (data : document) (s : song) :
  read_json env input_filepath = inr data ->
  In s (get_songs data) -> title s = None ->
  (forall p v,
      In (Write p v) (trace (process_songbook env input_filepath output_dir)) ->
      untitled_out_of_songs_and_catalog data s v)
  /\ (forall p a,
         In (Write p (OfAlbum a))
           (trace (process_songbook env input_filepath output_dir)) ->
         album s = Some (album_title a) -> In s (album_songs a))
  /\ (forall p a,
         In (Write p (OfArtist a))
           (trace (process_songbook env input_filepath output_dir)) ->
         artist s = Some (artist_name a) -> In s (artist_songs a)).
Proof.
  intros Hr Hin Ht. rewrite (process_songbook_loaded env _ _ data Hr).
  pose proof (untitled_in_songs_only data s Hin Ht) as Hso.
  repeat split.
  - intros p v [H | H]; [discriminate|].
    apply (after_load_writes env) in H.
    destruct H as [s' t Hs' Ht' Hp | k g Hg | k g Hg | m Hm | pr Hpr | ];
      simpl; auto.
    + congruence.
    + apply find_profile_title in Hpr. congruence.
    + now rewrite build_catalog_songs_only, build_catalog_titled.
  - intros p a [H | H]; [discriminate|].
    apply (after_load_writes env) in H. inversion H; subst. simpl.
    intros Hk. apply sorted_by_In. eapply group_has_member; eassumption.
  - intros p a [H | H]; [discriminate|].
    apply (after_load_writes env) in H. inversion H; subst. simpl.
    intros Hk. apply sorted_by_In. eapply group_has_member; eassumption.
Qed.

Lemma untitled_record_excluded_witness :
  In Sample.untitled
    (album_songs (make_album_data "Z" [Sample.song_B; Sample.untitled])).
Proof.
  apply (proj1 (proj2 (untitled_record_excluded
                         (Sample.all_fine Sample.songbook_with_untitled)
                         "songbook.json" "out" Sample.songbook_with_untitled
                         Sample.untitled eq_refl
                         (or_intror (or_introl eq_refl)) eq_refl))
           ["out"; "albums"; "Z.json"]).
  - vm_compute. tauto.
  - reflexivity.
Defined.

(** ** Album and artist files *)

(** C4: in every album file and every artist file written, [songs] is in
    ascending order of title and [song_count] is the length of [songs]. *)
Theorem member_lists_sorted_and_counted (env : environment)
  (input_filepath output_dir : string) (p : path) (v : dumped) :
  In (Write p v) (trace (process_songbook env input_filepath output_dir)) ->
  members_sorted_and_counted v.
Proof.
  intros H. apply process_songbook_writes in H as (data & _ & H).
  apply after_load_writes in H.
  destruct H; simpl; auto using sorted_by_sorted.
Qed.

Lemma member_lists_sorted_and_counted_witness :
  members_sorted_and_counted
    (OfAlbum {| album_title := "Z";
                album_artist := "X";
                album_song_count := 2;
                album_songs := [Sample.song_A; Sample.song_B] |}).
Proof.
  apply (member_lists_sorted_and_counted (Sample.all_fine Sample.songbook)
           "songbook.json" "out" ["out"; "albums"; "Z.json"]).
  vm_compute. tauto.
Defined.

(** ** The catalog's list of songs *)

(** C5: the [songs] of the catalog written is the sorted list of the
    titles of all records of the input that have a title other than
    [Profile]: it is in ascending order and a rearrangement of those
    titles, so a title that occurs several times is listed as often; and
    a run that ends without an exception has written the catalog. *)
Theorem catalog_songs_sorted_titles (env : environment)
  (input_filepath output_dir : string) (data : document) :
  read_json env input_filepath = inr data ->
  (forall p c,
      In (Write p (OfCatalog c))
        (trace (process_songbook env input_filepath output_dir)) ->
      catalog_songs c = sorted (eligible_titles (get_songs data))
      /\ StronglySorted str_le (catalog_songs c)
      /\ Permutation (catalog_songs c) (eligible_titles (get_songs data)))
  /\ (outcome (process_songbook env input_filepath output_dir) = inr tt ->
      exists c,
        In (Write [output_dir; "catalog.json"] (OfCatalog c))
          (trace (process_songbook env input_filepath output_dir))).
Proof.
  intros Hr. rewrite (process_songbook_loaded env _ _ data Hr). split.
  - intros p c [H | H]; [discriminate|].
    apply (after_load_writes env) in H. inversion H; subst.
    rewrite build_catalog_songs, catalog_titles_songs_only,
      catalog_titles_eligible.
    split; [reflexivity|]. split; [apply sorted_sorted | apply sorted_perm].
  - simpl. intros Hok.
    apply after_load_ok in Hok as (Hd & Hp & Hc).
    exists (build_catalog (songs_only_of (get_songs data))). right.
    apply in_trace_after_load_catalog; [exact Hd | exact Hp |].
    now apply (create_catalog_file_written env _ [output_dir]).
Qed.

Lemma catalog_songs_sorted_titles_witness :
  exists c,
    In (Write ["out"; "catalog.json"] (OfCatalog c))
      (trace (process_songbook (Sample.all_fine Sample.songbook)
                "songbook.json" "out"))
    /\ catalog_songs c = ["A"; "B"].
Proof.
  destruct (proj2 (catalog_songs_sorted_titles
                     (Sample.all_fine Sample.songbook) "songbook.json" "out"
                     Sample.songbook eq_refl) eq_refl) as [c Hc].
  exists c. split; [exact Hc|].
  apply (proj1 (catalog_songs_sorted_titles
                  (Sample.all_fine Sample.songbook) "songbook.json" "out"
                  Sample.songbook eq_refl) _ _ Hc).
Defined.

(** ** The artist of an album *)

(** C6: the [artist] of every album file written is the [artist] of the
    first record, in the order of the songs handed to [create_album_files]
    and before they are sorted, whose [album] is that album title, or
    [Various Artists] if that record has no [artist]; in a run the songs
    handed over are the records of the input not titled [Profile]. *)
Theorem album_artist_of_first_song (env : environment) :
  (forall songs_data base_path p a,
      In (Write p (OfAlbum a))
        (trace (create_album_files env songs_data base_path)) ->
      artist_of_first songs_data a)
  /\ (forall input_filepath output_dir data p a,
         read_json env input_filepath = inr data ->
         In (Write p (OfAlbum a))
           (trace (process_songbook env input_filepath output_dir)) ->
         artist_of_first (songs_only_of (get_songs data)) a).
Proof.
  assert (Hgroup : forall l k g,
             In (k, g) (group_songs album l) ->
             artist_of_first l (make_album_data k g)).
  { intros l k g Hg.
    destruct (group_songs_first album l k g Hg) as (_ & s & Hfirst & Hfind).
    exists s. split; [exact Hfind|]. simpl. now rewrite Hfirst. }
  split.
  - intros songs_data base_path p a H.
    apply create_album_files_writes in H as (k & g & Hg & [= ->] & _).
    now apply Hgroup.
  - intros input_filepath output_dir data p a Hr H.
    rewrite (process_songbook_loaded env _ _ data Hr) in H.
    destruct H as [H | H]; [discriminate|].
    apply (after_load_writes env) in H. inversion H; subst.
    now apply Hgroup.
Qed.

Lemma album_artist_of_first_song_witness :
  artist_of_first Sample.compilation
    {| album_title := "Z";
       album_artist := "Y";
       album_song_count := 2;
       album_songs := List.rev Sample.compilation |}.
Proof.
  apply (proj1 (album_artist_of_first_song (Sample.all_fine Sample.songbook))
           Sample.compilation ["out"] ["out"; "albums"; "Z.json"]).
  vm_compute. tauto.
Defined.

(** ** Failures *)

Section Failures.

Lemma append_inv_head (a b c : string) : a ++ b = a ++ c -> b = c.
Proof.
  induction a as [|x a IH]; simpl; intros H; [exact H|].
  injection H as H. now apply IH.
Qed.

Lemma diagnostics_distinct (input_filepath : string) (e : exn) :
  not_found_message input_filepath <> not_json_message input_filepath
  /\ not_found_message input_filepath <> unexpected_message e
  /\ not_json_message input_filepath <> unexpected_message e.
Proof.
  unfold not_found_message, not_json_message, unexpected_message.
  repeat split; try (simpl; discriminate).
  intros H. do 2 apply append_inv_head in H. discriminate.
Qed.

Variable env : environment.

(** When the profile and metadata stage raises, nothing after it runs. *)
Lemma in_trace_after_load_raised (ev : event) (data : document)
  (output_dir : string) (e : exn) :
  outcome (create_profile_and_metadata_files env data [output_dir]) = inl e ->
  In ev (trace (after_load env data output_dir)) ->
  let songs_only := songs_only_of (get_songs data) in
  In ev (trace (create_directories env [output_dir]))
  \/ In ev (trace (create_song_files env songs_only [output_dir]))
  \/ In ev (trace (create_album_files env songs_only [output_dir]))
  \/ In ev (trace (create_artist_files env songs_only [output_dir]))
  \/ In ev (trace (create_profile_and_metadata_files env data [output_dir])).
Proof.
  unfold after_load. intros He H. cbv zeta.
  do 4 (apply in_trace_bind in H as [H | (_ & _ & H)]; [tauto|]).
  apply in_trace_bind in H as [H | (a & Ha & _)]; [tauto | congruence].
Qed.

Lemma no_catalog_when_raised (data : document) (output_dir : string)
  (e : exn) (p : path) (c : catalog) :
  outcome (create_profile_and_metadata_files env data [output_dir]) = inl e ->
  ~ In (Write p (OfCatalog c)) (trace (after_load env data output_dir)).
Proof.
  intros He H. apply (in_trace_after_load_raised _ _ _ e He) in H.
  cbv zeta in H. destruct H as [H | [H | [H | [H | H]]]].
  - now apply create_directories_writes in H.
  - apply create_song_files_writes in H as (s & t & _ & H & _). discriminate.
  - apply create_album_files_writes in H as (k & g & _ & H & _). discriminate.
  - apply create_artist_files_writes in H as (k & g & _ & H & _).
    discriminate.
  - apply create_profile_and_metadata_files_writes in H
      as [(m & _ & H & _) | (pr & _ & H & _)]; discriminate.
Qed.

End Failures.

(** C7: when loading fails, [process_songbook] returns at once: it has
    printed the loading line and one diagnostic, which is a different line
    for a missing file, for invalid JSON and for any other error, and it
    has created no directory and written no file. *)
Theorem load_failure_stops_the_run (env : environment)
  (input_filepath output_dir : string) (e : exn) :
  read_json env input_filepath = inl e ->
  process_songbook env input_filepath output_dir
  = ([Print ("Loading songbook from: " ++ input_filepath);
      Print (load_diagnostic input_filepath e)],
     inr tt)
  /\ (forall ev,
         In ev (trace (process_songbook env input_filepath output_dir)) ->
         exists line, ev = Print line)
  /\ load_diagnostic input_filepath e
     = match e with
       | FileNotFoundError _ => not_found_message input_filepath
       | JSONDecodeError _ => not_json_message input_filepath
       | OtherException _ => unexpected_message e
       end
  /\ (forall e', not_found_message input_filepath
                 <> not_json_message input_filepath
                 /\ not_found_message input_filepath <> unexpected_message e'
                 /\ not_json_message input_filepath <> unexpected_message e').
Proof.
  intros Hr. rewrite (process_songbook_load_failed env _ _ e Hr).
  split; [reflexivity|]. split; [|split].
  - simpl. intros ev [<- | [<- | []]]; eauto.
  - now destruct e.
  - intros e'. apply diagnostics_distinct.
Qed.

Lemma load_failure_stops_the_run_witness :
  process_songbook (Sample.unreadable (FileNotFoundError "No such file"))
    "songbook.json" "out"
  = ([Print "Loading songbook from: songbook.json";
      Print "Error: The file 'songbook.json' was not found."],
     inr tt).
Proof.
  apply (proj1 (load_failure_stops_the_run
                  (Sample.unreadable (FileNotFoundError "No such file"))
                  "songbook.json" "out" (FileNotFoundError "No such file")
                  eq_refl)).
Defined.

(** C9: a failure to write [metadata.json] or [artist_profile.json] is
    caught nowhere: it leaves [create_profile_and_metadata_files], and
    [process_songbook], as an exception, and the catalog is not written. *)
Theorem metadata_and_profile_failures_raised (env : environment)
  (input_filepath output_dir : string) (data : document) (e : exn) :
  read_json env input_filepath = inr data ->
  outcome (create_directories env [output_dir]) = inr tt ->
  (forall metadata,
      doc_metadata data = Some metadata ->
      write_json env [output_dir; "metadata.json"] (OfJson metadata) = Some e ->
      outcome (create_profile_and_metadata_files env data [output_dir]) = inl e
      /\ outcome (process_songbook env input_filepath output_dir) = inl e
      /\ forall p v,
           In (Write p v)
             (trace (process_songbook env input_filepath output_dir)) ->
           p <> [output_dir; "artist_profile.json"]
           /\ p <> [output_dir; "catalog.json"])
  /\ (forall profile,
         match doc_metadata data with
         | Some metadata =>
             write_json env [output_dir; "metadata.json"] (OfJson metadata)
             = None
         | None => True
         end ->
         find_profile data = Some profile ->
         write_json env [output_dir; "artist_profile.json"] (OfSong profile)
         = Some e ->
         outcome (create_profile_and_metadata_files env data [output_dir])
         = inl e
         /\ outcome (process_songbook env input_filepath output_dir) = inl e
         /\ forall p v,
              In (Write p v)
                (trace (process_songbook env input_filepath output_dir)) ->
              p <> [output_dir; "artist_profile.json"]
              /\ p <> [output_dir; "catalog.json"]).
Proof.
  intros Hr Hd.
  assert (Hpaths : forall p v,
             outcome (create_profile_and_metadata_files env data [output_dir])
             = inl e ->
             (forall q w,
                 In (Write q w)
                   (trace (create_profile_and_metadata_files env data
                             [output_dir])) ->
                 q = [output_dir; "metadata.json"]) ->
             In (Write p v)
               (trace (process_songbook env input_filepath output_dir)) ->
             p <> [output_dir; "artist_profile.json"]
             /\ p <> [output_dir; "catalog.json"]).
  { intros p v He Hstage H.
    rewrite (process_songbook_loaded env _ _ data Hr) in H.
    destruct H as [H | H]; [discriminate|].
    apply (in_trace_after_load_raised env _ _ _ e He) in H. cbv zeta in H.
    destruct H as [H | [H | [H | [H | H]]]].
    - now apply create_directories_writes in H.
    - apply create_song_files_writes in H as (s & t & _ & _ & _ & _ & ->).
      split; apply not_eq_sym, item_path_not_root_file.
    - apply create_album_files_writes in H as (k & g & _ & _ & ->).
      split; apply not_eq_sym, item_path_not_root_file.
    - apply create_artist_files_writes in H as (k & g & _ & _ & ->).
      split; apply not_eq_sym, item_path_not_root_file.
    - rewrite (Hstage _ _ H). split; discriminate. }
  assert (Hrun : outcome (create_profile_and_metadata_files env data
                            [output_dir]) = inl e ->
                 outcome (process_songbook env input_filepath output_dir)
                 = inl e).
  { intros He. rewrite (process_songbook_loaded env _ _ data Hr). simpl.
    now rewrite after_load_outcome, Hd, He. }
  split.
  - intros metadata Hm Hw.
    pose proof (create_profile_and_metadata_files_metadata_failed env data
                  [output_dir] metadata e Hm Hw) as Hstage.
    assert (He : outcome (create_profile_and_metadata_files env data
                            [output_dir]) = inl e) by now rewrite Hstage.
    split; [exact He|]. split; [now apply Hrun|].
    intros p v. apply Hpaths; [exact He|].
    rewrite Hstage. simpl. intros q w [H | [H | []]]; discriminate.
  - intros profile Hm Hf Hw.
    destruct (create_profile_and_metadata_files_profile_failed env data
                [output_dir] profile e Hm Hf Hw) as [He Hstage].
    split; [exact He|]. split; [now apply Hrun|].
    intros p v. apply Hpaths; [exact He | exact Hstage].
Qed.

Lemma metadata_and_profile_failures_raised_witness :
  outcome (process_songbook
             (Sample.fails_at Sample.songbook [["out"; "metadata.json"]])
             "songbook.json" "out") = inl Sample.disk_error
  /\ outcome (process_songbook
                (Sample.fails_at Sample.songbook
                   [["out"; "artist_profile.json"]])
                "songbook.json" "out") = inl Sample.disk_error.
Proof.
  split.
  - apply (proj1 (metadata_and_profile_failures_raised
                    (Sample.fails_at Sample.songbook [["out"; "metadata.json"]])
                    "songbook.json" "out" Sample.songbook Sample.disk_error
                    eq_refl eq_refl)
             (JObject [("v", JNumber "1")]) eq_refl eq_refl).
  - apply (proj2 (metadata_and_profile_failures_raised
                    (Sample.fails_at Sample.songbook
                       [["out"; "artist_profile.json"]])
                    "songbook.json" "out" Sample.songbook Sample.disk_error
                    eq_refl eq_refl)
             Sample.profile eq_refl eq_refl eq_refl).
Defined.

(** * Further properties of the program *)

(** ** More on [sanitize_filename] *)

Section SanitizeMore.

Lemma sanitize_filename_append (a b : string) :
  sanitize_filename (a ++ b) = sanitize_filename a ++ sanitize_filename b.
Proof.
  induction a as [|c a IH]; [reflexivity|].
  cbn [append]. rewrite !sanitize_filename_cons, IH.
  now destruct (is_invalid_char c).
Qed.

Lemma sanitize_filename_chars (name : string) (c : ascii) :
  In c (list_ascii_of_string (sanitize_filename name)) ->
  is_invalid_char c = false /\ c <> " "%char.
Proof.
  induction name as [|x s IH]; intros H; [contradiction|].
  rewrite sanitize_filename_cons in H.
  destruct (is_invalid_char x) eqn:Ex; [now apply IH|].
  destruct H as [<- | H]; [|now apply IH].
  destruct (Ascii.eqb x " ") eqn:Es.
  - split; [reflexivity | discriminate].
  - split; [exact Ex | now apply Ascii.eqb_neq].
Qed.

End SanitizeMore.

(** X1: [sanitize_filename] goes through concatenation: the name of a
    concatenation is the concatenation of the names. *)
Theorem sanitize_filename_app (a b : string) :
  sanitize_filename (a ++ b) = sanitize_filename a ++ sanitize_filename b.
Proof.
  induction a as [|c a IH]; [reflexivity|].
  cbn [append]. rewrite !sanitize_filename_cons, IH.
  now destruct (is_invalid_char c).
Qed.

(** X2: the names [sanitize_filename] leaves unchanged are exactly those
    with no character of the removed set and no space. *)
Theorem sanitize_filename_fixed_point (name : string) :
  sanitize_filename name = name
  <-> forall c, In c (list_ascii_of_string name) ->
                is_invalid_char c = false /\ c <> " "%char.
Proof.
  split.
  - intros H c Hc. rewrite <- H in Hc.
    now apply (sanitize_filename_chars name).
  - induction name as [|x s IH]; intros H; [reflexivity|].
    rewrite sanitize_filename_cons.
    destruct (H x (or_introl eq_refl)) as [Hx Hs].
    rewrite Hx. apply Ascii.eqb_neq in Hs. rewrite Hs.
    f_equal. apply IH. intros c Hc. apply H. now right.
Qed.

(** X3: names that differ by a removed character, or by a space against an
    underscore, are given the same file name. *)
Theorem sanitize_filename_collisions (a b : string) :
  (forall c, is_invalid_char c = true ->
             sanitize_filename (a ++ String c b) = sanitize_filename (a ++ b))
  /\ sanitize_filename (a ++ String " " b)
     = sanitize_filename (a ++ String "_" b).
Proof.
  split.
  - intros c Hc. rewrite !sanitize_filename_append, sanitize_filename_cons.
    now rewrite Hc.
  - rewrite !sanitize_filename_append, !sanitize_filename_cons. reflexivity.
Qed.

(** ** Where files are written, and when *)

Section Paths.

Lemma list_ascii_of_string_app (a b : string) :
  list_ascii_of_string (a ++ b)
  = (list_ascii_of_string a ++ list_ascii_of_string b)%list.
Proof.
  induction a as [|c a IH]; [reflexivity|]. simpl. now rewrite IH.
Qed.

Lemma item_name_no_separator (name : string) :
  no_separator (sanitize_filename name ++ ".json").
Proof.
  intros c Hc. rewrite list_ascii_of_string_app in Hc.
  apply in_app_or in Hc as [Hc | Hc].
  - apply sanitize_filename_chars in Hc as [Hc _].
    split; intros ->; discriminate.
  - simpl in Hc.
    destruct Hc as [<- | [<- | [<- | [<- | [<- | []]]]]];
      split; discriminate.
Qed.

Variable env : environment.

Lemma create_directories_run (base_path : path) :
  create_directories env base_path
  = match makedirs env (os_path_join base_path "songs") with
    | Some e => ([Print "Creating output directories..."], inl e)
    | None =>
        match makedirs env (os_path_join base_path "albums") with
        | Some e =>
            ([Print "Creating output directories...";
              Makedirs (os_path_join base_path "songs")], inl e)
        | None =>
            match makedirs env (os_path_join base_path "artists") with
            | Some e =>
                ([Print "Creating output directories...";
                  Makedirs (os_path_join base_path "songs");
                  Makedirs (os_path_join base_path "albums")], inl e)
            | None =>
                ([Print "Creating output directories...";
                  Makedirs (os_path_join base_path "songs");
                  Makedirs (os_path_join base_path "albums");
                  Makedirs (os_path_join base_path "artists");
                  Print "Directories created successfully."], inr tt)
            end
        end
    end.
Proof.
  unfold create_directories, os_makedirs.
  destruct (makedirs env (os_path_join base_path "songs")); [reflexivity|].
  destruct (makedirs env (os_path_join base_path "albums")); [reflexivity|].
  now destruct (makedirs env (os_path_join base_path "artists")).
Qed.

Lemma create_directories_outcome (base_path : path) :
  outcome (create_directories env base_path)
  = match first_makedirs_error env base_path with
    | Some e => inl e
    | None => inr tt
    end.
Proof.
  rewrite create_directories_run. unfold first_makedirs_error.
  destruct (makedirs env (os_path_join base_path "songs")); [reflexivity|].
  destruct (makedirs env (os_path_join base_path "albums")); [reflexivity|].
  now destruct (makedirs env (os_path_join base_path "artists")).
Qed.

(** When the directories cannot be created the run stops there. *)
Lemma after_load_no_directories (data : document) (output_dir : string)
  (e : exn) :
  outcome (create_directories env [output_dir]) = inl e ->
  after_load env data output_dir = create_directories env [output_dir].
Proof.
  intros He. unfold after_load. cbv zeta.
  destruct (create_directories env [output_dir]) as [t [e' | u]];
    [reflexivity | discriminate].
Qed.

(** When they can, the run begins with their creation. *)
Lemma after_load_directories (data : document) (output_dir : string) :
  outcome (create_directories env [output_dir]) = inr tt ->
  exists rest,
    trace (after_load env data output_dir)
    = ([Print "Creating output directories...";
        Makedirs [output_dir; "songs"];
        Makedirs [output_dir; "albums"];
        Makedirs [output_dir; "artists"];
        Print "Directories created successfully."] ++ rest)%list.
Proof.
  intros Hd. unfold after_load. cbv zeta. rewrite trace_bind, Hd.
  eexists. f_equal.
  rewrite create_directories_outcome in Hd.
  rewrite create_directories_run. unfold first_makedirs_error in Hd.
  destruct (makedirs env (os_path_join [output_dir] "songs"));
    [discriminate|].
  destruct (makedirs env (os_path_join [output_dir] "albums"));
    [discriminate|].
  destruct (makedirs env (os_path_join [output_dir] "artists"));
    [discriminate|].
  reflexivity.
Qed.

Lemma prefix_before {X : Type} (h r pre post : list X) (x : X) :
  (h ++ r = pre ++ x :: post)%list ->
  (forall y, In y h -> y <> x) ->
  exists pre', pre = (h ++ pre')%list.
Proof.
  revert pre. induction h as [|a h IH]; intros pre E Hh; [now exists pre|].
  destruct pre as [|b pre]; simpl in E.
  - injection E as E _. exfalso. apply (Hh a); [now left | exact E].
  - injection E as <- E. destruct (IH pre E) as [pre' ->].
    + intros y Hy. apply Hh. now right.
    + now exists pre'.
Qed.

End Paths.

(** X4: every file of a run is written directly in the output directory
    or in one of its directories [songs], [albums] and [artists]; its name
    ends in [.json] and holds no slash and no backslash, so that no title
    or name leads out of its directory. *)
Theorem written_paths_stay_inside (env : environment)
  (input_filepath output_dir : string) (p : path) (v : dumped) :
  In (Write p v) (trace (process_songbook env input_filepath output_dir)) ->
  exists dirs stem,
    p = ([output_dir] ++ dirs ++ [(stem ++ ".json")%string])%list
    /\ (dirs = [] \/ dirs = ["songs"] \/ dirs = ["albums"]
        \/ dirs = ["artists"])
    /\ no_separator (stem ++ ".json").
Proof.
  intros H. apply process_songbook_writes in H as (data & _ & H).
  apply after_load_writes in H.
  destruct H as [s t Hs Ht Hp | k g Hg | k g Hg | m Hm | pr Hpr | ].
  - exists ["songs"], (sanitize_filename t).
    split; [reflexivity|]. split; [tauto | apply item_name_no_separator].
  - exists ["albums"], (sanitize_filename k).
    split; [reflexivity|]. split; [tauto | apply item_name_no_separator].
  - exists ["artists"], (sanitize_filename k).
    split; [reflexivity|]. split; [tauto | apply item_name_no_separator].
  - exists [], "metadata". split; [reflexivity|]. split; [tauto|].
    intros c Hc. simpl in Hc.
    repeat (destruct Hc as [<- | Hc]; [split; discriminate|]). contradiction.
  - exists [], "artist_profile". split; [reflexivity|]. split; [tauto|].
    intros c Hc. simpl in Hc.
    repeat (destruct Hc as [<- | Hc]; [split; discriminate|]). contradiction.
  - exists [], "catalog". split; [reflexivity|]. split; [tauto|].
    intros c Hc. simpl in Hc.
    repeat (destruct Hc as [<- | Hc]; [split; discriminate|]). contradiction.
Qed.

Lemma written_paths_stay_inside_witness :
  exists dirs stem,
    ["out"; "songs"; "A.json"]
    = (["out"] ++ dirs ++ [(stem ++ ".json")%string])%list
    /\ (dirs = [] \/ dirs = ["songs"] \/ dirs = ["albums"]
        \/ dirs = ["artists"])
    /\ no_separator (stem ++ ".json").
Proof.
  apply (written_paths_stay_inside (Sample.all_fine Sample.songbook)
           "songbook.json" "out" ["out"; "songs"; "A.json"]
           (OfSong Sample.song_A)).
  vm_compute. tauto.
Defined.

(** X5: no file is written before the three directories have been
    created: in the trace of a run, every write comes after the creation
    of [songs], [albums] and [artists]. *)
Theorem directories_created_before_writes (env : environment)
  (input_filepath output_dir : string) (pre post : list event)
  (p : path) (v : dumped) :
  trace (process_songbook env input_filepath output_dir)
  = (pre ++ Write p v :: post)%list ->
  In (Makedirs [output_dir; "songs"]) pre
  /\ In (Makedirs [output_dir; "albums"]) pre
  /\ In (Makedirs [output_dir; "artists"]) pre.
Proof.
  intros E.
  assert (Hin : In (Write p v)
                  (trace (process_songbook env input_filepath output_dir)))
    by (rewrite E; apply in_elt).
  apply process_songbook_writes in Hin as (data & Hr & Hin).
  rewrite (process_songbook_loaded env _ _ data Hr) in E.
  cbn [trace fst] in E.
  destruct (outcome (create_directories env [output_dir])) as [e | []] eqn:Hd.
  - rewrite (after_load_no_directories env data output_dir e Hd) in Hin.
    now apply create_directories_writes in Hin.
  - destruct (after_load_directories env data output_dir Hd) as [rest Hrest].
    rewrite Hrest in E.
    destruct (prefix_before
                [Print ("Loading songbook from: " ++ input_filepath);
                 Print "Creating output directories...";
                 Makedirs [output_dir; "songs"];
                 Makedirs [output_dir; "albums"];
                 Makedirs [output_dir; "artists"];
                 Print "Directories created successfully."]
                rest pre post (Write p v) E) as [pre' ->].
    + intros y Hy. simpl in Hy.
      repeat (destruct Hy as [<- | Hy]; [discriminate|]). contradiction.
    + repeat split; apply in_or_app; left; simpl; tauto.
Qed.

Lemma directories_created_before_writes_witness :
  exists pre post,
    trace (process_songbook (Sample.all_fine Sample.songbook)
             "songbook.json" "out")
    = (pre ++ Write ["out"; "songs"; "B.json"] (OfSong Sample.song_B)
         :: post)%list
    /\ In (Makedirs ["out"; "artists"]) pre.
Proof.
  exists [Print "Loading songbook from: songbook.json";
          Print "Creating output directories...";
          Makedirs ["out"; "songs"];
          Makedirs ["out"; "albums"];
          Makedirs ["out"; "artists"];
          Print "Directories created successfully.";
          Print "Creating individual files for 2 songs..."].
  eexists.
  assert (E : trace (process_songbook (Sample.all_fine Sample.songbook)
                       "songbook.json" "out")
              = ([Print "Loading songbook from: songbook.json";
                  Print "Creating output directories...";
                  Makedirs ["out"; "songs"];
                  Makedirs ["out"; "albums"];
                  Makedirs ["out"; "artists"];
                  Print "Directories created successfully.";
                  Print "Creating individual files for 2 songs..."]
                 ++ Write ["out"; "songs"; "B.json"] (OfSong Sample.song_B)
                 :: tl (tl (tl (tl (tl (tl (tl (tl
                      (trace (process_songbook
                                (Sample.all_fine Sample.songbook)
                                "songbook.json" "out"))))))))))%list)
    by (vm_compute; reflexivity).
  split; [exact E|].
  apply (directories_created_before_writes _ _ _ _ _ _ _ E).
Defined.

(** ** What stops a run *)

(** X6: when one of the three directories cannot be created, the run
    raises that exception and writes no file at all. *)
Theorem makedirs_failure_stops_the_run (env : environment)
  (input_filepath output_dir : string) (data : document) (e : exn) :
  read_json env input_filepath = inr data ->
  first_makedirs_error env [output_dir] = Some e ->
  outcome (process_songbook env input_filepath output_dir) = inl e
  /\ forall p v,
       ~ In (Write p v)
           (trace (process_songbook env input_filepath output_dir)).
Proof.
  intros Hr He.
  assert (Hd : outcome (create_directories env [output_dir]) = inl e)
    by now rewrite create_directories_outcome, He.
  rewrite (process_songbook_loaded env _ _ data Hr).
  rewrite (after_load_no_directories env data output_dir e Hd).
  split; [exact Hd|].
  intros p v [H | H]; [discriminate|].
  now apply create_directories_writes in H.
Qed.

Lemma makedirs_failure_stops_the_run_witness :
  process_songbook
    (Sample.no_directory Sample.songbook [["out"; "albums"]])
    "songbook.json" "out"
  = ([Print "Loading songbook from: songbook.json";
      Print "Creating output directories...";
      Makedirs ["out"; "songs"]],
     inl Sample.disk_error).
Proof.
  pose proof (makedirs_failure_stops_the_run
                (Sample.no_directory Sample.songbook [["out"; "albums"]])
                "songbook.json" "out" Sample.songbook Sample.disk_error
                eq_refl eq_refl) as [Hraised _].
  rewrite (M_eta (process_songbook _ _ _)), Hraised.
  reflexivity.
Defined.

(** ** Which records reach which file *)

Section Members.

Variable env : environment.

Lemma create_song_file_written (dir p : path) (s : song) (v : dumped) :
  In (Write p v) (trace (create_song_file env dir s)) ->
  write_json env p v = None.
Proof.
  destruct (title s) as [t|] eqn:Et;
    [|now rewrite create_song_file_skip by auto].
  destruct (String.eqb_spec t "Profile") as [-> | Hp];
    [now rewrite create_song_file_skip by auto|].
  destruct (write_json env (os_path_join dir (sanitize_filename t ++ ".json"))
              (OfSong s)) as [e|] eqn:Ew.
  - rewrite (create_song_file_failed env dir s t e) by assumption. simpl.
    intros [H | [H | []]]; discriminate.
  - rewrite (create_song_file_ok env dir s t) by assumption. simpl.
    intros [H | []]. now inversion H; subst.
Qed.

Lemma in_trace_after_load_songs (ev : event) (data : document)
  (output_dir : string) :
  outcome (create_directories env [output_dir]) = inr tt ->
  In ev (trace (create_song_files env (songs_only_of (get_songs data))
                  [output_dir])) ->
  In ev (trace (after_load env data output_dir)).
Proof.
  intros Hd H. unfold after_load. cbv zeta.
  apply (in_trace_bind_r _ _ _ tt Hd). now apply in_trace_bind_l.
Qed.

Lemma filter_filter {X : Type} (f g : X -> bool) (l : list X) :
  filter f (filter g l) = filter (fun x => g x && f x) l.
Proof.
  induction l as [|x l IH]; [reflexivity|]. simpl.
  destruct (g x); simpl; [destruct (f x)|]; now rewrite IH.
Qed.

Lemma filter_pointwise {X : Type} (f g : X -> bool) (l : list X) :
  (forall x, f x = g x) -> filter f l = filter g l.
Proof.
  intros H. induction l as [|x l IH]; [reflexivity|]. simpl.
  now rewrite H, IH.
Qed.

(** The group of a key, in terms of the input document. *)
Lemma group_members_of (field : song -> option string) (data : document)
  (k : string) (g : list song) :
  In (k, g) (group_songs field (songs_only_of (get_songs data))) ->
  k <> "" /\ g = members_of field k data.
Proof.
  intros Hg.
  destruct (group_songs_first field _ k g Hg) as [Hk _].
  destruct (group_songs_sound field _ k g Hg) as [-> _].
  split; [exact Hk|].
  unfold members_of, songs_only_of, is_profile. rewrite filter_filter.
  apply filter_pointwise. intros x. now rewrite in_group_get_eq.
Qed.

End Members.

(** When every line is printed, a record with a title [t] is written to
    the song file named after [t] exactly when it is a record of the
    input, [t] is not [Profile], and that write does not fail. *)
Lemma song_written_iff_when_printed (env : environment)
  (input_filepath output_dir : string) (data : document) (s : song)
  (t : string) :
  read_json env input_filepath = inr data ->
  first_makedirs_error env [output_dir] = None ->
  title s = Some t ->
  In (Write (item_path [output_dir] "songs" t) (OfSong s))
    (trace (process_songbook env input_filepath output_dir))
  <-> In s (get_songs data) /\ t <> "Profile"
      /\ write_json env (item_path [output_dir] "songs" t) (OfSong s) = None.
Proof.
  intros Hr Hmk Ht.
  assert (Hd : outcome (create_directories env [output_dir]) = inr tt)
    by now rewrite create_directories_outcome, Hmk.
  rewrite (process_songbook_loaded env _ _ data Hr). cbn [trace fst].
  split.
  - intros [H | H]; [discriminate|].
    apply in_trace_after_load in H. cbv zeta in H.
    destruct H as [H | [H | [H | [H | [H | [H | (line & H)]]]]]].
    + now apply create_directories_writes in H.
    + rewrite create_song_files_run in H. cbn [trace fst] in H.
      destruct H as [H | H]; [discriminate|].
      apply in_app_or in H as [H | [H | []]]; [|discriminate].
      apply in_flat_map in H as (s' & Hs' & H).
      pose proof (create_song_file_written env _ _ _ _ H) as Hw.
      apply create_song_file_writes in H as ([= <-] & t' & Ht' & Hp & _).
      apply songs_only_of_In in Hs' as [Hs' _].
      rewrite Ht in Ht'. injection Ht' as <-. auto.
    + apply create_album_files_writes in H as (k & g & _ & H & _).
      discriminate.
    + apply create_artist_files_writes in H as (k & g & _ & H & _).
      discriminate.
    + apply create_profile_and_metadata_files_writes in H
        as [(m & _ & H & _) | (pr & _ & _ & H)]; discriminate.
    + apply create_catalog_file_writes in H as [H _]. discriminate.
    + discriminate.
  - intros (Hs & Hp & Hw). right.
    apply in_trace_after_load_songs; [exact Hd|].
    rewrite create_song_files_run. cbn [trace fst]. right.
    apply in_or_app. left. apply in_flat_map. exists s. split.
    + apply songs_only_of_In. split; [exact Hs | congruence].
    + rewrite (create_song_file_ok env _ s t Ht Hp Hw). now left.
Qed.

(** X9: an album file written by a run holds exactly the records of the
    input, other than those titled [Profile], whose [album] is the file's
    album title, each as often as it occurs; the title is not empty and
    [song_count] is the number of those records.  The same holds for an
    artist file and the records of that [artist]. *)
Theorem group_files_hold_their_members (env : environment)
  (input_filepath output_dir : string) (data : document) (p : path) :
  read_json env input_filepath = inr data ->
  (forall a,
      In (Write p (OfAlbum a))
        (trace (process_songbook env input_filepath output_dir)) ->
      album_title a <> ""
      /\ Permutation (album_songs a) (members_of album (album_title a) data)
      /\ album_song_count a
         = List.length (members_of album (album_title a) data))
  /\ (forall a,
         In (Write p (OfArtist a))
           (trace (process_songbook env input_filepath output_dir)) ->
         artist_name a <> ""
         /\ Permutation (artist_songs a)
              (members_of artist (artist_name a) data)
         /\ artist_song_count a
            = List.length (members_of artist (artist_name a) data)).
Proof.
  intros Hr. rewrite (process_songbook_loaded env _ _ data Hr).
  split; intros a [H | H]; try discriminate;
    apply (after_load_writes env) in H; inversion H; subst;
    match goal with
    | Hg : In (_, _) (group_songs _ _) |- _ =>
        apply group_members_of in Hg as [Hk ->]
    end;
    cbn [album_title album_songs album_song_count
         artist_name artist_songs artist_song_count
         make_album_data make_artist_data];
    (split; [exact Hk|]);
    (split; [apply sorted_by_perm | apply sorted_by_length]).
Qed.

Lemma group_files_hold_their_members_witness :
  Permutation [Sample.song_A; Sample.song_B]
    (members_of album "Z" Sample.songbook).
Proof.
  apply (proj1 (group_files_hold_their_members
                  (Sample.all_fine Sample.songbook) "songbook.json" "out"
                  Sample.songbook ["out"; "albums"; "Z.json"] eq_refl)
           {| album_title := "Z";
              album_artist := "X";
              album_song_count := 2;
              album_songs := [Sample.song_A; Sample.song_B] |}).
  vm_compute. tauto.
Defined.

(** X10: the sort of the members is stable: in an album or artist file,
    the records that share a title (records without a title counting as
    the empty title) stand in the order they have in the input. *)
Theorem equal_titles_keep_input_order (env : environment)
  (input_filepath output_dir : string) (data : document) (p : path)
  (t : string) :
  read_json env input_filepath = inr data ->
  (forall a,
      In (Write p (OfAlbum a))
        (trace (process_songbook env input_filepath output_dir)) ->
      filter (fun s => title_key s =? t) (album_songs a)
      = filter (fun s => title_key s =? t)
          (members_of album (album_title a) data))
  /\ (forall a,
         In (Write p (OfArtist a))
           (trace (process_songbook env input_filepath output_dir)) ->
         filter (fun s => title_key s =? t) (artist_songs a)
         = filter (fun s => title_key s =? t)
             (members_of artist (artist_name a) data)).
Proof.
  intros Hr. rewrite (process_songbook_loaded env _ _ data Hr).
  split; intros a [H | H]; try discriminate;
    apply (after_load_writes env) in H; inversion H; subst;
    match goal with
    | Hg : In (_, _) (group_songs _ _) |- _ =>
        apply group_members_of in Hg as [Hk ->]
    end;
    cbn [album_title album_songs artist_name artist_songs
         make_album_data make_artist_data];
    apply sorted_by_stable.
Qed.

Lemma equal_titles_keep_input_order_witness :
  filter (fun s => title_key s =? "A")
    (album_songs
       (make_album_data "Z"
          [Sample.song_B; Sample.first_A; Sample.second_A]))
  = [Sample.first_A; Sample.second_A].
Proof.
  exact (proj1 (equal_titles_keep_input_order
                  (Sample.all_fine Sample.songbook_with_twins)
                  "songbook.json" "out" Sample.songbook_with_twins
                  ["out"; "albums"; "Z.json"] "A" eq_refl)
           (make_album_data "Z"
              [Sample.song_B; Sample.first_A; Sample.second_A])
           ltac:(vm_compute; tauto)).
Defined.

(** ** The order of the groups *)

Section GroupOrder.

Lemma first_seen_In (k : string) (keys : list string) :
  In k (first_seen keys) <-> In k keys.
Proof.
  induction keys as [|a keys IH]; [reflexivity|]. simpl.
  rewrite filter_In, IH, negb_true_iff, String.eqb_neq.
  destruct (string_dec a k) as [-> | Hne]; [tauto|].
  split; [tauto|]. intros [H | H]; [contradiction|]. right. split; congruence.
Qed.

Lemma first_seen_snoc (keys : list string) (k : string) :
  first_seen (keys ++ [k])
  = (first_seen keys ++ if in_dec string_dec k keys then [] else [k])%list.
Proof.
  induction keys as [|a keys IH]; [reflexivity|].
  change (first_seen ((a :: keys) ++ [k]))
    with (a :: filter (fun x => negb (x =? a)) (first_seen (keys ++ [k]))).
  rewrite IH, filter_app.
  change (first_seen (a :: keys))
    with (a :: filter (fun x => negb (x =? a)) (first_seen keys)).
  rewrite <- app_comm_cons. f_equal. f_equal.
  destruct (in_dec string_dec k keys) as [Hin | Hnin];
    destruct (in_dec string_dec k (a :: keys)) as [Hin' | Hnin'];
    try reflexivity.
  - exfalso. apply Hnin'. now right.
  - destruct Hin' as [-> | Hin']; [|contradiction].
    simpl. now rewrite String.eqb_refl.
  - simpl. destruct (String.eqb_spec k a) as [-> | Hne]; [|reflexivity].
    exfalso. apply Hnin'. now left.
Qed.

Variable field : song -> option string.

Lemma keys_of_snoc (l : list song) (s : song) :
  keys_of field (l ++ [s])
  = (keys_of field l
       ++ if truthy (field s) then [get_or (field s) ""] else [])%list.
Proof.
  unfold keys_of. rewrite filter_app, map_app. simpl.
  now destruct (truthy (field s)).
Qed.

Lemma group_keys_In (l : list song) (k : string) :
  In k (map fst (group_songs field l)) <-> In k (keys_of field l).
Proof.
  destruct (group_songs_invariant field l) as (_ & Hsound & Hcomplete).
  unfold keys_of. rewrite in_map_iff. split.
  - intros ([k' g] & <- & Hin). simpl.
    destruct (Hsound _ _ Hin) as [Hg Hne].
    destruct g as [|x g']; [congruence|].
    assert (Hx : In x (filter (in_group field k') l))
      by (rewrite <- Hg; now left).
    apply filter_In in Hx as [Hx Hk].
    apply in_group_truthy in Hk as [Ht <-].
    apply in_map_iff. exists x. split; [reflexivity|].
    apply filter_In. auto.
  - intros Hin. apply in_map_iff in Hin as (s & <- & Hs).
    apply filter_In in Hs as [Hs Ht].
    apply in_map_iff. now apply Hcomplete.
Qed.

Lemma group_keys_first_seen (l : list song) :
  map fst (group_songs field l) = first_seen (keys_of field l).
Proof.
  induction l as [|s l IH] using rev_ind; [reflexivity|].
  rewrite group_songs_snoc, keys_of_snoc.
  destruct (truthy (field s)); [|now rewrite app_nil_r].
  rewrite first_seen_snoc, <- IH.
  destruct (in_dec string_dec (get_or (field s) "") (keys_of field l))
    as [Hin | Hnin].
  - rewrite app_nil_r. apply dict_append_keys_old. now apply group_keys_In.
  - apply dict_append_keys_new. now rewrite group_keys_In.
Qed.

End GroupOrder.

(** X11: the albums (and the artists) are taken up in the order in which
    their names first occur in the songs handed over, each name once: the
    keys of the grouping are the distinct non-empty values of the field in
    order of first occurrence. *)
Theorem groups_in_order_of_first_occurrence (field : song -> option string)
  (songs_data : list song) :
  map fst (group_songs field songs_data)
  = first_seen (keys_of field songs_data)
  /\ NoDup (map fst (group_songs field songs_data)).
Proof.
  split; [apply group_keys_first_seen | apply group_songs_invariant].
Qed.

(** ** The profile and the metadata *)

Section ProfileMore.

Lemma find_split {X : Type} (f : X -> bool) (l : list X) (x : X) :
  find f l = Some x ->
  exists pre post,
    l = (pre ++ x :: post)%list /\ f x = true
    /\ forall y, In y pre -> f y = false.
Proof.
  induction l as [|a l IH]; simpl; [discriminate|].
  destruct (f a) eqn:Ea.
  - intros [= <-]. exists [], l. repeat split; [exact Ea | contradiction].
  - intros H. destruct (IH H) as (pre & post & -> & Hx & Hpre).
    exists (a :: pre), post. repeat split; [exact Hx|].
    intros y [<- | Hy]; auto.
Qed.

Lemma find_profile_none (data : document) :
  (forall s, In s (get_songs data) -> title s <> Some "Profile") ->
  find_profile data = None.
Proof.
  intros H. unfold find_profile.
  destruct (find _ (get_songs data)) as [s|] eqn:E; [|reflexivity].
  apply find_some in E as [Hs Ht]. apply get_eq_true in Ht.
  now apply H in Hs.
Qed.

Lemma written_by_root_file (data : document) (output_dir name : string)
  (v : dumped) :
  written_by data output_dir [output_dir; name] v ->
  (exists metadata, doc_metadata data = Some metadata
                    /\ name = "metadata.json" /\ v = OfJson metadata)
  \/ (exists profile, find_profile data = Some profile
                      /\ name = "artist_profile.json" /\ v = OfSong profile)
  \/ (name = "catalog.json"
      /\ v = OfCatalog (build_catalog (songs_only_of (get_songs data)))).
Proof.
  intros H. inversion H; subst;
    try (match goal with
         | E : item_path _ _ _ = _ |- _ =>
             unfold item_path, os_path_join in E; simpl in E; discriminate
         end).
  - left. eauto.
  - right. left. eauto.
  - right. right. auto.
Qed.

End ProfileMore.

(** X12: when several records are titled [Profile], the one dumped is the
    first of them in input order, and no other is dumped anywhere. *)
Theorem first_profile_record_is_written (env : environment)
  (input_filepath output_dir : string) (data : document) (p : path)
  (s : song) :
  read_json env input_filepath = inr data ->
  In (Write p (OfSong s))
    (trace (process_songbook env input_filepath output_dir)) ->
  title s = Some "Profile" ->
  p = [output_dir; "artist_profile.json"]
  /\ exists pre post,
       get_songs data = (pre ++ s :: post)%list
       /\ forall x, In x pre -> title x <> Some "Profile".
Proof.
  intros Hr H Ht. rewrite (process_songbook_loaded env _ _ data Hr) in H.
  destruct H as [H | H]; [discriminate|].
  apply (after_load_writes env) in H. inversion H; subst.
  - congruence.
  - split; [reflexivity|].
    match goal with Hf : find_profile data = Some s |- _ =>
      apply find_split in Hf as (pre & post & E & _ & Hpre) end.
    exists pre, post. split; [exact E|].
    intros x Hx Hp. apply get_eq_true in Hp. rewrite Hpre in Hp by exact Hx.
    discriminate.
Qed.

Lemma first_profile_record_is_written_witness :
  ["out"; "artist_profile.json"] = ["out"; "artist_profile.json"]
  /\ exists pre post,
       get_songs Sample.songbook_with_two_profiles
       = (pre ++ Sample.profile :: post)%list
       /\ forall x, In x pre -> title x <> Some "Profile".
Proof.
  apply (first_profile_record_is_written
           (Sample.all_fine Sample.songbook_with_two_profiles)
           "songbook.json" "out" Sample.songbook_with_two_profiles
           ["out"; "artist_profile.json"] Sample.profile eq_refl).
  - vm_compute. tauto.
  - reflexivity.
Defined.

(** X13: a document without [metadata] gets no [metadata.json] and one
    without a record titled [Profile] gets no [artist_profile.json]; with
    neither, the extraction prints its first line, writes nothing and
    raises nothing. *)
Theorem absent_metadata_and_profile_skipped (env : environment)
  (input_filepath output_dir : string) (data : document) :
  read_json env input_filepath = inr data ->
  (doc_metadata data = None ->
   forall v,
     ~ In (Write [output_dir; "metadata.json"] v)
         (trace (process_songbook env input_filepath output_dir)))
  /\ ((forall s, In s (get_songs data) -> title s <> Some "Profile") ->
      forall v,
        ~ In (Write [output_dir; "artist_profile.json"] v)
            (trace (process_songbook env input_filepath output_dir)))
  /\ (doc_metadata data = None ->
      (forall s, In s (get_songs data) -> title s <> Some "Profile") ->
      create_profile_and_metadata_files env data [output_dir]
      = ([Print "Extracting profile and metadata..."], inr tt)).
Proof.
  intros Hr. rewrite (process_songbook_loaded env _ _ data Hr).
  split; [|split].
  - intros Hm v [H | H]; [discriminate|].
    apply (after_load_writes env), written_by_root_file in H
      as [(m & Hm' & _) | [(pr & _ & E & _) | (E & _)]];
      congruence || discriminate.
  - intros Hp v [H | H]; [discriminate|].
    apply find_profile_none in Hp.
    apply (after_load_writes env), written_by_root_file in H
      as [(m & _ & E & _) | [(pr & Hpr & _) | (E & _)]];
      congruence || discriminate.
  - intros Hm Hp. apply find_profile_none in Hp.
    unfold create_profile_and_metadata_files. now rewrite Hm, Hp.
Qed.

Lemma absent_metadata_and_profile_skipped_witness :
  create_profile_and_metadata_files (Sample.all_fine Sample.bare_songbook)
    Sample.bare_songbook ["out"]
  = ([Print "Extracting profile and metadata..."], inr tt).
Proof.
  apply (proj2 (proj2 (absent_metadata_and_profile_skipped
                         (Sample.all_fine Sample.bare_songbook)
                         "songbook.json" "out" Sample.bare_songbook
                         eq_refl))).
  - reflexivity.
  - simpl. intros s [<- | [<- | []]]; discriminate.
Defined.

(** ** The mappings of the catalog *)

Section Collect.

Context {X V : Type} (keep : X -> bool) (key : X -> string) (value : X -> V).

Lemma collect_snoc (l : list X) (x : X) (d : list (string * list V)) :
  fold_left (collect_step keep key value) (l ++ [x]) d = (collect_step keep key value) (fold_left (collect_step keep key value) l d) x.
Proof. now rewrite fold_left_app. Qed.

Lemma collect_invariant (l : list X) :
  NoDup (map fst (fold_left (collect_step keep key value) l []))
  /\ (forall k g, In (k, g) (fold_left (collect_step keep key value) l []) ->
        g = map value (filter (fun x => keep x && (key x =? k)) l)
        /\ g <> [])
  /\ (forall x, In x l -> keep x = true ->
        In (key x) (map fst (fold_left (collect_step keep key value) l []))).
Proof.
  induction l as [|s l (Hnd & Hsound & Hcomplete)] using rev_ind.
  - simpl. repeat split; try constructor; contradiction.
  - rewrite collect_snoc. unfold collect_step at 1 3 5.
    assert (Hother : forall k, k <> key s ->
               filter (fun x => keep x && (key x =? k)) (l ++ [s])
               = filter (fun x => keep x && (key x =? k)) l).
    { intros k Hk. rewrite filter_snoc.
      replace (key s =? k) with false; [now rewrite andb_false_r, app_nil_r|].
      symmetry. apply String.eqb_neq. congruence. }
    destruct (keep s) eqn:Es.
    + assert (Hs : (fun x => keep x && (key x =? key s)) s = true)
        by (cbv beta; now rewrite Es, String.eqb_refl).
      destruct (in_dec string_dec (key s) (map fst (fold_left (collect_step keep key value) l [])))
        as [Hin | Hnew].
      * split; [now rewrite dict_append_keys_old|]. split.
        -- intros k g H.
           destruct (dict_append_In _ _ _ _ _ Hnd H)
             as [(Hk & Hg) | [(-> & g0 & Hg & ->) | (_ & Habs & _)]];
             [| | contradiction].
           ++ rewrite Hother by exact Hk. now apply Hsound.
           ++ rewrite filter_snoc, Hs, map_app.
              destruct (Hsound _ _ Hg) as [<- _].
              split; [reflexivity | now destruct g0].
        -- intros x Hx Hxk. rewrite dict_append_keys_old by exact Hin.
           apply in_app_or in Hx as [Hx | [<- | []]]; auto.
      * split.
        { rewrite dict_append_keys_new by exact Hnew.
          apply NoDup_app; [exact Hnd | repeat constructor; intros [] |].
          intros x Hx [<- | []]. now apply Hnew. }
        split.
        -- intros k g H.
           destruct (dict_append_In _ _ _ _ _ Hnd H)
             as [(Hk & Hg) | [(-> & g0 & Hg & ->) | (-> & _ & ->)]].
           ++ rewrite Hother by exact Hk. now apply Hsound.
           ++ exfalso. apply Hnew. change (key s) with (fst (key s, g0)).
              now apply in_map.
           ++ rewrite filter_snoc, Hs, filter_none;
                [split; [reflexivity | discriminate]|].
              intros x Hx. apply not_true_is_false. intros E.
              apply andb_prop in E as [Ek E]. apply String.eqb_eq in E.
              apply Hnew. rewrite <- E. now apply Hcomplete.
        -- intros x Hx Hxk. rewrite dict_append_keys_new by exact Hnew.
           apply in_or_app.
           apply in_app_or in Hx as [Hx | [<- | []]]; [left | right]; auto.
           now left.
    + split; [exact Hnd|]. split.
      * intros k g H. rewrite filter_snoc, Es. cbn [andb].
        rewrite app_nil_r. now apply Hsound.
      * intros x Hx Hxk.
        apply in_app_or in Hx as [Hx | [<- | []]]; [auto | congruence].
Qed.

Lemma dict_append_nonempty (k : string) (v : V) (d : list (string * list V)) :
  (forall k' g, In (k', g) d -> g <> []) ->
  forall k' g, In (k', g) (dict_append k v d) -> g <> [].
Proof.
  induction d as [|[k0 vs] d IH]; simpl; intros Hd k' g H.
  - destruct H as [[= <- <-] | []]. discriminate.
  - destruct (k0 =? k).
    + destruct H as [[= <- <-] | H]; [now destruct vs|].
      apply (Hd k' g). now right.
    + destruct H as [[= <- <-] | H]; [apply (Hd k0 vs); now left|].
      apply (IH (fun a b Hab => Hd a b (or_intror Hab)) k' g H).
Qed.

End Collect.

Section CatalogMappings.

Lemma catalog_eligible_add (c : catalog) (s : song) :
  catalog_add c s
  = if catalog_eligible s
    then {| catalog_artists :=
              dict_append (artist_key s) (title_key s) (catalog_artists c);
            catalog_albums :=
              album_append (album_key s) (artist_key s) (title_key s)
                (catalog_albums c);
            catalog_songs := catalog_songs c |}
    else c.
Proof.
  unfold catalog_add, catalog_eligible.
  destruct (truthy (title s)); [|reflexivity]. simpl.
  now destruct (get_eq (title s) "Profile").
Qed.

Lemma catalog_artists_fold (l : list song) (c : catalog) :
  catalog_artists (fold_left catalog_add l c)
  = fold_left (collect_step catalog_eligible artist_key title_key) l
      (catalog_artists c).
Proof.
  revert c. induction l as [|s l IH]; intros c; [reflexivity|].
  simpl. rewrite IH, catalog_eligible_add. f_equal. unfold collect_step.
  now destruct (catalog_eligible s).
Qed.

Lemma entry_of_snoc (g : list (string * string)) (a t : string) :
  g <> [] ->
  entry_of (g ++ [(a, t)])
  = {| entry_artist := entry_artist (entry_of g);
       entry_songs := (entry_songs (entry_of g) ++ [t])%list |}.
Proof.
  intros Hg. unfold entry_of. rewrite map_app. simpl.
  destruct g as [|[a0 t0] g]; [contradiction | reflexivity].
Qed.

Lemma album_append_as_dict (k a t : string)
  (d : list (string * list (string * string))) :
  (forall k' g, In (k', g) d -> g <> []) ->
  album_append k a t (map (fun kv => (fst kv, entry_of (snd kv))) d)
  = map (fun kv => (fst kv, entry_of (snd kv))) (dict_append k (a, t) d).
Proof.
  induction d as [|[k0 vs] d IH]; intros Hd; [reflexivity|].
  simpl. destruct (k0 =? k).
  - simpl. rewrite entry_of_snoc; [reflexivity|].
    apply (Hd k0 vs). now left.
  - simpl. rewrite IH; [reflexivity|].
    intros k' g H. apply (Hd k' g). now right.
Qed.

Lemma catalog_albums_fold (l : list song) (c : catalog)
  (d : list (string * list (string * string))) :
  (forall k g, In (k, g) d -> g <> []) ->
  catalog_albums c = map (fun kv => (fst kv, entry_of (snd kv))) d ->
  catalog_albums (fold_left catalog_add l c)
  = map (fun kv => (fst kv, entry_of (snd kv)))
      (fold_left
         (collect_step catalog_eligible album_key
            (fun s => (artist_key s, title_key s)))
         l d).
Proof.
  revert c d. induction l as [|s l IH]; intros c d Hd Hc; [exact Hc|].
  simpl. apply IH.
  - unfold collect_step. destruct (catalog_eligible s); [|exact Hd].
    now apply dict_append_nonempty.
  - rewrite catalog_eligible_add. unfold collect_step.
    destruct (catalog_eligible s); [|exact Hc].
    simpl. rewrite Hc. now apply album_append_as_dict.
Qed.

(** The artists of the catalog. *)
Lemma build_catalog_artists (l : list song) (k : string) (ts : list string) :
  In (k, ts) (catalog_artists (build_catalog l)) ->
  ts = sorted (map title_key (filed_under artist_key k l)) /\ ts <> [].
Proof.
  unfold build_catalog, catalog_sort. cbn [catalog_artists].
  rewrite catalog_artists_fold. cbn [catalog_artists].
  intros H. apply in_map_iff in H as ([k0 g] & Heq & H).
  cbn [fst snd] in Heq. injection Heq as Hk He. subst k0 ts.
  destruct (collect_invariant catalog_eligible artist_key title_key l)
    as (_ & Hsound & _).
  destruct (Hsound _ _ H) as [-> Hne]. split; [reflexivity|].
  intros E. apply Hne.
  apply Permutation_nil. rewrite <- E. apply sorted_perm.
Qed.

Lemma build_catalog_artists_keys (l : list song) :
  map fst (catalog_artists (build_catalog l))
  = map fst (fold_left (collect_step catalog_eligible artist_key title_key)
               l []).
Proof.
  unfold build_catalog, catalog_sort. cbn [catalog_artists].
  rewrite catalog_artists_fold. cbn [catalog_artists].
  rewrite map_map. reflexivity.
Qed.

(** The albums of the catalog. *)
Lemma build_catalog_albums (l : list song) (k : string) (e : album_entry) :
  In (k, e) (catalog_albums (build_catalog l)) ->
  entry_songs e = sorted (map title_key (filed_under album_key k l))
  /\ exists s, hd_error (filed_under album_key k l) = Some s
               /\ entry_artist e = artist_key s.
Proof.
  unfold build_catalog, catalog_sort. cbn [catalog_albums].
  rewrite (catalog_albums_fold l _ []);
    [| intros ? ? [] | reflexivity].
  intros H. apply in_map_iff in H as ([k0 e0] & Heq & H).
  cbn [fst snd] in Heq. injection Heq as Hk He. subst k0 e.
  apply in_map_iff in H as ([k1 g] & Heq & H).
  cbn [fst snd] in Heq. injection Heq as Hk He. subst k1 e0.
  destruct (collect_invariant catalog_eligible album_key
              (fun s => (artist_key s, title_key s)) l) as (_ & Hsound & _).
  destruct (Hsound _ _ H) as [-> Hne]. cbn [entry_songs entry_artist fst snd].
  fold (filed_under album_key k l) in *. split.
  - unfold entry_of. cbn [entry_songs]. now rewrite map_map.
  - destruct (filed_under album_key k l) as [|s r]; [contradiction|].
    exists s. split; reflexivity.
Qed.

Lemma build_catalog_albums_keys (l : list song) :
  map fst (catalog_albums (build_catalog l))
  = map fst (fold_left
               (collect_step catalog_eligible album_key
                  (fun s => (artist_key s, title_key s))) l []).
Proof.
  unfold build_catalog, catalog_sort. cbn [catalog_albums].
  rewrite (catalog_albums_fold l _ []);
    [| intros ? ? [] | reflexivity].
  rewrite !map_map. reflexivity.
Qed.

End CatalogMappings.

Section CatalogListing.

Lemma catalog_eligible_title (s : song) :
  catalog_eligible s = true ->
  title s = Some (title_key s) /\ title_key s <> ""
  /\ title_key s <> "Profile".
Proof.
  unfold catalog_eligible, title_key. intros H.
  apply andb_prop in H as [Ht Hp]. apply negb_true_iff in Hp.
  destruct (truthy_get_or _ Ht) as [E Hne]. repeat split; auto.
  intros Hpr. rewrite E in Hp. simpl in Hp. rewrite Hpr in Hp. discriminate.
Qed.

Lemma filed_under_In (key : song -> string) (k : string) (l : list song)
  (s : song) :
  In s (filed_under key k l)
  <-> In s l /\ catalog_eligible s = true /\ key s = k.
Proof.
  unfold filed_under. rewrite filter_In, andb_true_iff, String.eqb_eq.
  tauto.
Qed.

Lemma build_catalog_artists_complete (l : list song) (s : song) :
  In s l -> catalog_eligible s = true ->
  exists ts, In (artist_key s, ts) (catalog_artists (build_catalog l))
             /\ In (title_key s) ts.
Proof.
  intros Hs He.
  destruct (collect_invariant catalog_eligible artist_key title_key l)
    as (_ & _ & Hcomplete).
  specialize (Hcomplete s Hs He).
  rewrite <- build_catalog_artists_keys in Hcomplete.
  apply in_map_iff in Hcomplete as ([k ts] & Hk & Hin).
  cbn [fst] in Hk. subst k. exists ts. split; [exact Hin|].
  destruct (build_catalog_artists l _ _ Hin) as [-> _].
  apply (Permutation_in _ (Permutation_sym (sorted_perm _))).
  apply in_map. now apply filed_under_In.
Qed.

Lemma build_catalog_albums_complete (l : list song) (s : song) :
  In s l -> catalog_eligible s = true ->
  exists e, In (album_key s, e) (catalog_albums (build_catalog l))
            /\ In (title_key s) (entry_songs e).
Proof.
  intros Hs He.
  destruct (collect_invariant catalog_eligible album_key
              (fun s => (artist_key s, title_key s)) l)
    as (_ & _ & Hcomplete).
  specialize (Hcomplete s Hs He).
  rewrite <- build_catalog_albums_keys in Hcomplete.
  apply in_map_iff in Hcomplete as ([k e] & Hk & Hin).
  cbn [fst] in Hk. subst k. exists e. split; [exact Hin|].
  destruct (build_catalog_albums l _ _ Hin) as [-> _].
  apply (Permutation_in _ (Permutation_sym (sorted_perm _))).
  apply in_map. now apply filed_under_In.
Qed.

Lemma build_catalog_artists_NoDup (l : list song) :
  NoDup (map fst (catalog_artists (build_catalog l))).
Proof. rewrite build_catalog_artists_keys. apply collect_invariant. Qed.

Lemma build_catalog_albums_NoDup (l : list song) :
  NoDup (map fst (catalog_albums (build_catalog l))).
Proof. rewrite build_catalog_albums_keys. apply collect_invariant. Qed.

(** The catalog a run writes is the catalog of all records of the input. *)
Lemma written_catalog (env : environment) (input_filepath output_dir : string)
  (data : document) (p : path) (c : catalog) :
  read_json env input_filepath = inr data ->
  In (Write p (OfCatalog c))
    (trace (process_songbook env input_filepath output_dir)) ->
  c = build_catalog (get_songs data).
Proof.
  intros Hr H. rewrite (process_songbook_loaded env _ _ data Hr) in H.
  destruct H as [H | H]; [discriminate|].
  apply (after_load_writes env) in H. inversion H; subst.
  apply build_catalog_songs_only.
Qed.

End CatalogListing.

(** X14: in the catalog a run writes, [artists] has each artist once; the
    list of an artist is not empty and is the sorted list of the titles of
    the records filed under it: those with a title that is neither empty
    nor [Profile] and whose [artist], or [Unknown Artist] when the key is
    missing, is that artist.  Every such record is listed. *)
Theorem catalog_artists_listing (env : environment)
  (input_filepath output_dir : string) (data : document) (p : path)
  (c : catalog) :
  read_json env input_filepath = inr data ->
  In (Write p (OfCatalog c))
    (trace (process_songbook env input_filepath output_dir)) ->
  NoDup (map fst (catalog_artists c))
  /\ (forall k ts,
         In (k, ts) (catalog_artists c) ->
         ts <> []
         /\ ts = sorted (map title_key
                           (filed_under artist_key k (get_songs data))))
  /\ (forall s,
         In s (get_songs data) -> catalog_eligible s = true ->
         exists ts, In (artist_key s, ts) (catalog_artists c)
                    /\ In (title_key s) ts).
Proof.
  intros Hr H. rewrite (written_catalog env _ _ data p c Hr H).
  split; [apply build_catalog_artists_NoDup|]. split.
  - intros k ts Hin. now destruct (build_catalog_artists _ _ _ Hin).
  - intros s. apply build_catalog_artists_complete.
Qed.

Lemma catalog_artists_listing_witness :
  exists ts,
    In ("Unknown Artist", ts)
      (catalog_artists
         (build_catalog (get_songs Sample.songbook_with_loose_songs)))
    /\ In "C" ts.
Proof.
  apply (proj2 (proj2 (catalog_artists_listing
                         (Sample.all_fine Sample.songbook_with_loose_songs)
                         "songbook.json" "out"
                         Sample.songbook_with_loose_songs
                         ["out"; "catalog.json"]
                         (build_catalog
                            (get_songs Sample.songbook_with_loose_songs))
                         eq_refl ltac:(vm_compute; tauto)))
           Sample.loose_song).
  - simpl. tauto.
  - reflexivity.
Defined.

(** X15: in the catalog a run writes, [albums] has each album once; the
    [songs] of an album is the sorted list of the titles of the records
    filed under it (title neither empty nor [Profile]; [album], or
    [Uncategorized] when the key is missing, equal to that album), and its
    [artist] is the artist, or [Unknown Artist], of the first of those
    records in input order.  Every such record is listed, under the empty
    album when its [album] is the empty string. *)
Theorem catalog_albums_listing (env : environment)
  (input_filepath output_dir : string) (data : document) (p : path)
  (c : catalog) :
  read_json env input_filepath = inr data ->
  In (Write p (OfCatalog c))
    (trace (process_songbook env input_filepath output_dir)) ->
  NoDup (map fst (catalog_albums c))
  /\ (forall k e,
         In (k, e) (catalog_albums c) ->
         entry_songs e
         = sorted (map title_key (filed_under album_key k (get_songs data)))
         /\ exists s,
              hd_error (filed_under album_key k (get_songs data)) = Some s
              /\ entry_artist e = artist_key s)
  /\ (forall s,
         In s (get_songs data) -> catalog_eligible s = true ->
         exists e, In (album_key s, e) (catalog_albums c)
                   /\ In (title_key s) (entry_songs e)).
Proof.
  intros Hr H. rewrite (written_catalog env _ _ data p c Hr H).
  split; [apply build_catalog_albums_NoDup|]. split.
  - intros k e. apply build_catalog_albums.
  - intros s. apply build_catalog_albums_complete.
Qed.

Lemma catalog_albums_listing_witness :
  exists e,
    In ("Uncategorized", e)
      (catalog_albums
         (build_catalog (get_songs Sample.songbook_with_loose_songs)))
    /\ In "C" (entry_songs e).
Proof.
  apply (proj2 (proj2 (catalog_albums_listing
                         (Sample.all_fine Sample.songbook_with_loose_songs)
                         "songbook.json" "out"
                         Sample.songbook_with_loose_songs
                         ["out"; "catalog.json"]
                         (build_catalog
                            (get_songs Sample.songbook_with_loose_songs))
                         eq_refl ltac:(vm_compute; tauto)))
           Sample.loose_song).
  - simpl. tauto.
  - reflexivity.
Defined.

(** X16: a record whose title is the empty string is treated in two ways
    by the catalog: the empty title is in [songs] whenever some record has
    it, yet it is in the list of no artist and of no album. *)
Theorem empty_title_in_songs_only (env : environment)
  (input_filepath output_dir : string) (data : document) (p : path)
  (c : catalog) :
  read_json env input_filepath = inr data ->
  In (Write p (OfCatalog c))
    (trace (process_songbook env input_filepath output_dir)) ->
  (In "" (catalog_songs c)
   <-> exists s, In s (get_songs data) /\ title s = Some "")
  /\ (forall k ts, In (k, ts) (catalog_artists c) -> ~ In "" ts)
  /\ (forall k e, In (k, e) (catalog_albums c) -> ~ In "" (entry_songs e)).
Proof.
  intros Hr H. rewrite (written_catalog env _ _ data p c Hr H).
  assert (Hfiled : forall key k,
             ~ In "" (sorted (map title_key
                                (filed_under key k (get_songs data))))).
  { intros key k Hin. apply (Permutation_in _ (sorted_perm _)) in Hin.
    apply in_map_iff in Hin as (s & Ht & Hs).
    apply filed_under_In in Hs as (_ & He & _).
    now apply catalog_eligible_title in He as (_ & Hne & _). }
  split; [|split].
  - rewrite build_catalog_songs. split.
    + intros Hin. apply (Permutation_in _ (sorted_perm _)) in Hin.
      unfold catalog_titles in Hin. apply in_flat_map in Hin as (s & Hs & Ht).
      exists s. split; [exact Hs|].
      destruct (title s) as [t|]; [|contradiction].
      destruct (negb (t =? "Profile")); [|contradiction].
      destruct Ht as [-> | []]. reflexivity.
    + intros (s & Hs & Ht).
      apply (Permutation_in _ (Permutation_sym (sorted_perm _))).
      unfold catalog_titles. apply in_flat_map. exists s.
      split; [exact Hs|]. rewrite Ht. simpl. now left.
  - intros k ts Hin. destruct (build_catalog_artists _ _ _ Hin) as [-> _].
    apply Hfiled.
  - intros k e Hin. destruct (build_catalog_albums _ _ _ Hin) as [-> _].
    apply Hfiled.
Qed.

Lemma empty_title_in_songs_only_witness :
  In "" (catalog_songs
           (build_catalog (get_songs Sample.songbook_with_loose_songs))).
Proof.
  apply (proj1 (empty_title_in_songs_only
                  (Sample.all_fine Sample.songbook_with_loose_songs)
                  "songbook.json" "out" Sample.songbook_with_loose_songs
                  ["out"; "catalog.json"]
                  (build_catalog
                     (get_songs Sample.songbook_with_loose_songs))
                  eq_refl ltac:(vm_compute; tauto))).
  exists Sample.nameless_song. split; [simpl; tauto | reflexivity].
Defined.

(** ** The order of the writes *)

Section WriteOrder.

Variable env : environment.

Lemma writes_of_app (t t' : list event) :
  writes_of (t ++ t') = (writes_of t ++ writes_of t')%list.
Proof. apply flat_map_app. Qed.

Lemma writes_of_flat_map {X : Type} (f : X -> list event) (l : list X) :
  writes_of (flat_map f l) = flat_map (fun x => writes_of (f x)) l.
Proof.
  induction l as [|x l IH]; [reflexivity|].
  simpl. now rewrite writes_of_app, IH.
Qed.




End WriteOrder.

(** ** Empty input, and the last line *)

(** X18: for a document without [songs], or with an empty list, a run
    writes no song, album, artist or profile file: the only files are the
    metadata, if the document has any, and a catalog with nothing in it. *)
Theorem no_songs_no_item_files (env : environment)
  (input_filepath output_dir : string) (data : document) (p : path)
  (v : dumped) :
  read_json env input_filepath = inr data ->
  get_songs data = [] ->
  In (Write p v) (trace (process_songbook env input_filepath output_dir)) ->
  (exists metadata, doc_metadata data = Some metadata
                    /\ p = [output_dir; "metadata.json"]
                    /\ v = OfJson metadata)
  \/ (p = [output_dir; "catalog.json"] /\ v = OfCatalog empty_catalog).
Proof.
  intros Hr Hs H. rewrite (process_songbook_loaded env _ _ data Hr) in H.
  destruct H as [H | H]; [discriminate|].
  apply (after_load_writes env) in H.
  destruct H as [s t Hin Ht Hp | k g Hg | k g Hg | m Hm | pr Hpr | ].
  - rewrite Hs in Hin. contradiction.
  - rewrite Hs in Hg. contradiction.
  - rewrite Hs in Hg. contradiction.
  - left. eauto.
  - unfold find_profile in Hpr. rewrite Hs in Hpr. discriminate.
  - right. rewrite Hs. split; reflexivity.
Qed.

Lemma no_songs_no_item_files_witness :
  (exists metadata,
      doc_metadata Sample.songless = Some metadata
      /\ ["out"; "catalog.json"] = ["out"; "metadata.json"]
      /\ OfCatalog empty_catalog = OfJson metadata)
  \/ (["out"; "catalog.json"] = ["out"; "catalog.json"]
      /\ OfCatalog empty_catalog = OfCatalog empty_catalog).
Proof.
  apply (no_songs_no_item_files (Sample.all_fine Sample.songless)
           "songbook.json" "out" Sample.songless
           ["out"; "catalog.json"] (OfCatalog empty_catalog)
           eq_refl eq_refl).
  vm_compute. tauto.
Defined.

Section LastLine.

Variable env : environment.











End LastLine.


(** ** What a song file holds in the end *)

Section FileAfter.

Variable env : environment.

Lemma same_path_true (p q : path) : same_path p q = true <-> p = q.
Proof.
  unfold same_path. destruct (list_eq_dec string_dec p q); split;
    congruence.
Qed.

Lemma same_path_false (p q : path) : p <> q -> same_path p q = false.
Proof.
  unfold same_path. now destruct (list_eq_dec string_dec p q).
Qed.

Lemma same_path_refl (p : path) : same_path p p = true.
Proof. now apply same_path_true. Qed.

Lemma file_after_app (t t' : list event) (p : path) (b : file_state) :
  file_after (t ++ t') p b = file_after t' p (file_after t p b).
Proof. unfold file_after. apply fold_left_app. Qed.

Lemma file_after_untouched (t : list event) (p : path) (b : file_state) :
  (forall ev q, In ev t -> event_path ev = Some q -> q <> p) ->
  file_after t p b = b.
Proof.
  revert b. induction t as [|ev t IH]; intros b H; [reflexivity|].
  unfold file_after. cbn [fold_left]. fold (file_after t p).
  assert (Ht : forall ev' q, In ev' t -> event_path ev' = Some q -> q <> p)
    by (intros ev' q Hin; apply H; now right).
  destruct ev as [line | dir | q v | q]; try (now apply IH).
  - rewrite same_path_false; [now apply IH|].
    apply (H (Write q v)); [now left | reflexivity].
  - rewrite same_path_false; [now apply IH|].
    apply (H (WriteFailed q)); [now left | reflexivity].
Qed.

Lemma string_length_app (a b : string) :
  String.length (a ++ b) = String.length a + String.length b.
Proof. induction a as [|c a IH]; simpl; [reflexivity | now rewrite IH]. Qed.

Lemma append_inv_tail (a b c : string) : a ++ c = b ++ c -> a = b.
Proof.
  intros E.
  assert (Hlen : String.length a = String.length b).
  { apply (f_equal String.length) in E. rewrite !string_length_app in E. lia. }
  revert b E Hlen.
  induction a as [|x a IH]; intros [|y b] E Hlen; simpl in *;
    try discriminate; [reflexivity|].
  injection E as -> E. f_equal. apply IH; [exact E | lia].
Qed.

Lemma regroup {X : Type} (x h foot : X) (d a b c r : list X) :
  (x :: d ++ (h :: (a ++ b ++ c) ++ [foot]) ++ r)%list
  = ((x :: d ++ h :: a) ++ b ++ (c ++ foot :: r))%list.
Proof.
  simpl. f_equal. rewrite <- (app_assoc d). simpl. f_equal. f_equal.
  rewrite <- !app_assoc. reflexivity.
Qed.

Lemma create_song_file_paths (dir : path) (s : song) (ev : event) (q : path) :
  In ev (trace (create_song_file env dir s)) -> event_path ev = Some q ->
  exists t, title s = Some t /\ t <> "Profile"
            /\ q = os_path_join dir (sanitize_filename t ++ ".json").
Proof.
  destruct (title s) as [t|] eqn:Et;
    [|now rewrite create_song_file_skip by auto].
  destruct (String.eqb_spec t "Profile") as [-> | Hp];
    [now rewrite create_song_file_skip by auto|].
  destruct (write_json env (os_path_join dir (sanitize_filename t ++ ".json"))
              (OfSong s)) as [e|] eqn:Ew.
  - rewrite (create_song_file_failed env dir s t e Et Hp Ew).
    intros [<- | [<- | []]]; [|discriminate].
    intros [= <-]. exists t. auto.
  - rewrite (create_song_file_ok env dir s t Et Hp Ew).
    intros [<- | []]. intros [= <-]. exists t. auto.
Qed.

Lemma create_album_file_paths (dir : path) (item : string * list song)
  (ev : event) (q : path) :
  In ev (trace (create_album_file env dir item)) -> event_path ev = Some q ->
  q = os_path_join dir (sanitize_filename (fst item) ++ ".json").
Proof.
  destruct item as [k g].
  destruct (write_json env (os_path_join dir (sanitize_filename k ++ ".json"))
              (OfAlbum (make_album_data k g))) as [e|] eqn:Ew.
  - rewrite (create_album_file_failed env dir k g e Ew).
    intros [<- | [<- | []]]; [|discriminate]. now intros [= <-].
  - rewrite (create_album_file_ok env dir k g Ew).
    intros [<- | []]. now intros [= <-].
Qed.

Lemma create_artist_file_paths (dir : path) (item : string * list song)
  (ev : event) (q : path) :
  In ev (trace (create_artist_file env dir item)) -> event_path ev = Some q ->
  q = os_path_join dir (sanitize_filename (fst item) ++ ".json").
Proof.
  destruct item as [k g].
  destruct (write_json env (os_path_join dir (sanitize_filename k ++ ".json"))
              (OfArtist (make_artist_data k g))) as [e|] eqn:Ew.
  - rewrite (create_artist_file_failed env dir k g e Ew).
    intros [<- | [<- | []]]; [|discriminate]. now intros [= <-].
  - rewrite (create_artist_file_ok env dir k g Ew).
    intros [<- | []]. now intros [= <-].
Qed.

(** No stage after the song stage touches a file of [songs]. *)
Lemma later_stages_paths (data : document) (output_dir : string)
  (ev : event) (q : path) :
  let songs_only := songs_only_of (get_songs data) in
  let base_path := [output_dir] in
  In ev (trace (create_album_files env songs_only base_path ;;
                create_artist_files env songs_only base_path ;;
                create_profile_and_metadata_files env data base_path ;;
                create_catalog_file env songs_only base_path ;;
                print completion_line ;;
                print ("All files have been saved in the '" ++ output_dir
                       ++ "' directory."))) ->
  event_path ev = Some q ->
  forall name, q <> [output_dir; "songs"; name].
Proof.
  cbv zeta. intros H Hq name.
  apply in_trace_bind in H as [H | (_ & _ & H)].
  { rewrite create_album_files_run in H. cbn [trace fst] in H.
    destruct H as [<- | H]; [discriminate|].
    apply in_app_or in H as [H | [<- | []]]; [|discriminate].
    apply in_flat_map in H as (item & _ & H).
    rewrite (create_album_file_paths _ _ _ _ H Hq). discriminate. }
  apply in_trace_bind in H as [H | (_ & _ & H)].
  { rewrite create_artist_files_run in H. cbn [trace fst] in H.
    destruct H as [<- | H]; [discriminate|].
    apply in_app_or in H as [H | [<- | []]]; [|discriminate].
    apply in_flat_map in H as (item & _ & H).
    rewrite (create_artist_file_paths _ _ _ _ H Hq). discriminate. }
  apply in_trace_bind in H as [H | (_ & _ & H)].
  { unfold create_profile_and_metadata_files, dump_to in H.
    destruct (doc_metadata data) as [m|];
      [destruct (write_json env (os_path_join [output_dir] "metadata.json")
                   _)|];
      (destruct (find_profile data) as [pr|];
       [destruct (write_json env
                    (os_path_join [output_dir] "artist_profile.json") _)|]);
      simpl in H;
      repeat (destruct H as [<- | H];
              [first [discriminate | injection Hq as <-; discriminate]|]);
      contradiction. }
  apply in_trace_bind in H as [H | (_ & _ & H)].
  { unfold create_catalog_file, dump_to in H.
    destruct (write_json env _ _); simpl in H;
      repeat (destruct H as [<- | H];
              [first [discriminate | injection Hq as <-; discriminate]|]);
      contradiction. }
  simpl in H. destruct H as [<- | [<- | []]]; discriminate.
Qed.

Lemma after_load_trace_split (data : document) (output_dir : string) :
  outcome (create_directories env [output_dir]) = inr tt ->
  exists rest,
    trace (after_load env data output_dir)
    = (trace (create_directories env [output_dir])
       ++ trace (create_song_files env (songs_only_of (get_songs data))
                   [output_dir])
       ++ rest)%list
    /\ forall ev q, In ev rest -> event_path ev = Some q ->
                    forall name, q <> [output_dir; "songs"; name].
Proof.
  intros Hd. unfold after_load. cbv zeta.
  rewrite trace_bind, Hd, trace_bind, create_song_files_run.
  cbn [outcome snd trace fst].
  eexists. split; [reflexivity|].
  intros ev q. apply later_stages_paths.
Qed.

End FileAfter.

(** ** The catalog and the caller's filter; the catalog and the files *)

Section Consistency.

Lemma map_insert_by {X : Type} (key : X -> string) (x : X) (l : list X) :
  map key (insert_by key x l) = insert_by (fun s => s) (key x) (map key l).
Proof.
  induction l as [|y l IH]; [reflexivity|]. simpl.
  destruct (key y <? key x); simpl; [now rewrite IH | reflexivity].
Qed.

Lemma map_sorted_by {X : Type} (key : X -> string) (l : list X) :
  map key (sorted_by key l) = sorted (map key l).
Proof.
  induction l as [|x l IH]; [reflexivity|].
  simpl. rewrite map_insert_by, IH. reflexivity.
Qed.

Lemma insert_by_dropped (q : string -> bool) (x : string) (l : list string) :
  q x = false ->
  filter q (insert_by (fun s => s) x l) = filter q l.
Proof.
  intros Hx. induction l as [|y l IH]; simpl; [now rewrite Hx|].
  destruct (y <? x); simpl; [now rewrite IH | now rewrite Hx].
Qed.

Lemma insert_by_front (x : string) (l : list string) :
  Forall (str_le x) l -> insert_by (fun s => s) x l = x :: l.
Proof.
  intros H. destruct l as [|y l]; [reflexivity|]. simpl.
  inversion H as [|? ? Hy _]; subst. unfold str_le in Hy.
  replace (y <? x) with false; [reflexivity|].
  symmetry. apply not_true_is_false. intros Hlt.
  apply string_ltb_neq in Hlt as Hne. apply string_ltb_leb in Hlt.
  apply Hne. now apply String.leb_antisym.
Qed.

Lemma insert_by_kept (q : string -> bool) (x : string) (l : list string) :
  q x = true -> StronglySorted str_le l ->
  filter q (insert_by (fun s => s) x l)
  = insert_by (fun s => s) x (filter q l).
Proof.
  intros Hx. induction 1 as [|y l Hl IH Hy]; simpl; [now rewrite Hx|].
  destruct (y <? x) eqn:E; simpl.
  - rewrite IH. destruct (q y); [|reflexivity]. simpl. now rewrite E.
  - rewrite Hx. symmetry. apply insert_by_front.
    apply string_ltb_false_leb in E.
    assert (Hall : Forall (str_le x) (y :: l)).
    { constructor; [exact E|].
      eapply Forall_impl; [|exact Hy].
      intros z Hz. eapply string_leb_trans; eassumption. }
    change (if q y then y :: filter q l else filter q l)
      with (filter q (y :: l)).
    apply Forall_forall. intros z Hz. apply filter_In in Hz as [Hz _].
    now apply (proj1 (Forall_forall _ _) Hall).
Qed.

Lemma sorted_filter (q : string -> bool) (l : list string) :
  sorted (filter q l) = filter q (sorted l).
Proof.
  induction l as [|x l IH]; [reflexivity|]. simpl.
  destruct (q x) eqn:Hx.
  - change (sorted (x :: filter q l))
      with (insert_by (fun s => s) x (sorted (filter q l))).
    rewrite IH. symmetry.
    apply insert_by_kept; [exact Hx | apply sorted_sorted].
  - change (sorted (x :: l)) with (insert_by (fun s => s) x (sorted l)).
    now rewrite insert_by_dropped.
Qed.

Lemma map_filter_key {X : Type} (key : X -> string) (q : string -> bool)
  (l : list X) :
  map key (filter (fun x => q (key x)) l) = filter q (map key l).
Proof.
  induction l as [|x l IH]; [reflexivity|]. simpl.
  destruct (q (key x)); simpl; now rewrite IH.
Qed.

Lemma truthy_title_key (s : song) :
  truthy (title s) = negb (title_key s =? "").
Proof. unfold truthy, title_key. now destruct (title s). Qed.

(** The records the catalog files under [k] are the members of [k] that
    have a non-empty title, when [k] is not the default of the field. *)
Lemma filed_under_members (field : song -> option string)
  (default k : string) (data : document) :
  k <> default ->
  filed_under (fun s => get_or (field s) default) k (get_songs data)
  = filter (fun s => negb (title_key s =? "")) (members_of field k data).
Proof.
  intros Hk. unfold filed_under, members_of. rewrite filter_filter.
  apply filter_pointwise. intros s.
  unfold catalog_eligible, is_profile. rewrite truthy_title_key.
  replace (get_or (field s) default =? k) with (get_eq (field s) k).
  - destruct (negb (title_key s =? ""));
      destruct (negb (get_eq (title s) "Profile"));
      destruct (get_eq (field s) k); reflexivity.
  - unfold get_eq, get_or. destruct (field s) as [v|]; [reflexivity|].
    symmetry. apply String.eqb_neq. congruence.
Qed.

Lemma titles_filed_under_members (field : song -> option string)
  (default k : string) (data : document) :
  k <> default ->
  sorted (map title_key
            (filed_under (fun s => get_or (field s) default) k
               (get_songs data)))
  = filter (fun t => negb (t =? ""))
      (map title_key (sorted_by title_key (members_of field k data))).
Proof.
  intros Hk. rewrite (filed_under_members field default k data Hk).
  rewrite (map_filter_key title_key (fun t => negb (t =? ""))).
  now rewrite sorted_filter, map_sorted_by.
Qed.

End Consistency.

(** X21: [create_catalog_file] skips the records titled [Profile] and
    those without a title by itself: it does the same on a list of songs
    and on the list without those records. *)
Theorem catalog_file_skips_profile_and_untitled (env : environment)
  (songs_data : list song) (base_path : path) :
  create_catalog_file env
    (filter (fun s => negb (is_profile s) && has_title s) songs_data)
    base_path
  = create_catalog_file env songs_data base_path.
Proof.
  unfold create_catalog_file. rewrite <- filter_filter.
  change (filter (fun s => negb (is_profile s)) songs_data)
    with (songs_only_of songs_data).
  now rewrite build_catalog_titled, build_catalog_songs_only.
Qed.

(** X22: the catalog agrees with the album and artist files of the same
    run: for an album other than [Uncategorized], the titles the catalog
    lists under it are the non-empty titles of the songs of its album
    file, in the same order; likewise for an artist other than
    [Unknown Artist] and its artist file. *)
Theorem catalog_agrees_with_group_files (env : environment)
  (input_filepath output_dir : string) (data : document)
  (p p' : path) (c : catalog) :
  read_json env input_filepath = inr data ->
  In (Write p (OfCatalog c))
    (trace (process_songbook env input_filepath output_dir)) ->
  (forall a e,
      In (Write p' (OfAlbum a))
        (trace (process_songbook env input_filepath output_dir)) ->
      album_title a <> "Uncategorized" ->
      In (album_title a, e) (catalog_albums c) ->
      entry_songs e
      = filter (fun t => negb (t =? "")) (map title_key (album_songs a)))
  /\ (forall a ts,
         In (Write p' (OfArtist a))
           (trace (process_songbook env input_filepath output_dir)) ->
         artist_name a <> "Unknown Artist" ->
         In (artist_name a, ts) (catalog_artists c) ->
         ts = filter (fun t => negb (t =? ""))
                (map title_key (artist_songs a))).
Proof.
  intros Hr Hc. rewrite (written_catalog env _ _ data p c Hr Hc).
  rewrite (process_songbook_loaded env _ _ data Hr).
  split.
  - intros a e [H | H] Hk He; [discriminate|].
    apply (after_load_writes env) in H. inversion H; subst.
    match goal with
    | Hg : In (_, _) (group_songs _ _) |- _ =>
        apply group_members_of in Hg as [_ ->]
    end.
    cbn [album_title album_songs make_album_data] in *.
    destruct (build_catalog_albums _ _ _ He) as [-> _].
    now apply (titles_filed_under_members album "Uncategorized").
  - intros a ts [H | H] Hk He; [discriminate|].
    apply (after_load_writes env) in H. inversion H; subst.
    match goal with
    | Hg : In (_, _) (group_songs _ _) |- _ =>
        apply group_members_of in Hg as [_ ->]
    end.
    cbn [artist_name artist_songs make_artist_data] in *.
    destruct (build_catalog_artists _ _ _ He) as [-> _].
    now apply (titles_filed_under_members artist "Unknown Artist").
Qed.

Lemma catalog_agrees_with_group_files_witness :
  ["B"]
  = filter (fun t => negb (t =? ""))
      (map title_key
         (album_songs
            (make_album_data "Z" [Sample.song_B; Sample.nameless_song]))).
Proof.
  exact (proj1 (catalog_agrees_with_group_files
                  (Sample.all_fine Sample.songbook_with_loose_songs)
                  "songbook.json" "out" Sample.songbook_with_loose_songs
                  ["out"; "catalog.json"] ["out"; "albums"; "Z.json"]
                  (build_catalog
                     (get_songs Sample.songbook_with_loose_songs))
                  eq_refl ltac:(vm_compute; tauto))
           (make_album_data "Z" [Sample.song_B; Sample.nameless_song])
           {| entry_artist := "X"; entry_songs := ["B"] |}
           ltac:(vm_compute; tauto)
           ltac:(discriminate)
           ltac:(vm_compute; tauto)).
Defined.

(** * When printing can fail *)

(** ** A standard output that takes every line *)

Section AllPrinted.

Variable env : environment.

Variable stdout : string -> option exn.

Hypothesis all_printed : forall line, stdout line = None.

Lemma print_all_printed (line : string) :
  WithStdout.print stdout line = print line.
Proof. unfold WithStdout.print. now rewrite all_printed. Qed.

Lemma bind_pointwise {A B : Type} (m : M A) (k k' : A -> M B) :
  (forall a, k a = k' a) -> bind m k = bind m k'.
Proof. intros H. destruct m as [t [e | a]]; simpl; [reflexivity | now rewrite H]. Qed.

Lemma try_except_pointwise {A : Type} (body : M A) (h h' : exn -> M A) :
  (forall e, h e = h' e) -> try_except body h = try_except body h'.
Proof.
  intros H. destruct body as [t [e | a]]; simpl; [now rewrite H | reflexivity].
Qed.

Lemma for_each_pointwise {A : Type} (f g : A -> M unit) (l : list A) :
  (forall x, f x = g x) -> for_each f l = for_each g l.
Proof.
  intros H. induction l as [|x l IH]; [reflexivity|].
  simpl. now rewrite H, IH.
Qed.

Lemma create_directories_all_printed (base_path : path) :
  WithStdout.create_directories env stdout base_path
  = create_directories env base_path.
Proof.
  unfold WithStdout.create_directories, create_directories.
  now rewrite !print_all_printed.
Qed.

Lemma create_song_file_all_printed (dir : path) (s : song) :
  WithStdout.create_song_file env stdout dir s = create_song_file env dir s.
Proof.
  unfold WithStdout.create_song_file, create_song_file.
  destruct (title s) as [t|]; [|reflexivity].
  destruct (negb (t =? "Profile")); [|reflexivity].
  apply try_except_pointwise. intros e. apply print_all_printed.
Qed.

Lemma create_song_files_all_printed (songs_data : list song)
  (base_path : path) :
  WithStdout.create_song_files env stdout songs_data base_path
  = create_song_files env songs_data base_path.
Proof.
  unfold WithStdout.create_song_files, create_song_files.
  rewrite !print_all_printed.
  now rewrite (for_each_pointwise _ _ _ (create_song_file_all_printed _)).
Qed.

Lemma create_album_file_all_printed (dir : path) (item : string * list song) :
  WithStdout.create_album_file env stdout dir item
  = create_album_file env dir item.
Proof.
  destruct item as [k g].
  unfold WithStdout.create_album_file, create_album_file.
  apply try_except_pointwise. intros e. apply print_all_printed.
Qed.

Lemma create_album_files_all_printed (songs_data : list song)
  (base_path : path) :
  WithStdout.create_album_files env stdout songs_data base_path
  = create_album_files env songs_data base_path.
Proof.
  unfold WithStdout.create_album_files, create_album_files.
  rewrite !print_all_printed.
  now rewrite (for_each_pointwise _ _ _ (create_album_file_all_printed _)).
Qed.

Lemma create_artist_file_all_printed (dir : path)
  (item : string * list song) :
  WithStdout.create_artist_file env stdout dir item
  = create_artist_file env dir item.
Proof.
  destruct item as [k g].
  unfold WithStdout.create_artist_file, create_artist_file.
  apply try_except_pointwise. intros e. apply print_all_printed.
Qed.

Lemma create_artist_files_all_printed (songs_data : list song)
  (base_path : path) :
  WithStdout.create_artist_files env stdout songs_data base_path
  = create_artist_files env songs_data base_path.
Proof.
  unfold WithStdout.create_artist_files, create_artist_files.
  rewrite !print_all_printed.
  now rewrite (for_each_pointwise _ _ _ (create_artist_file_all_printed _)).
Qed.

Lemma create_profile_and_metadata_files_all_printed (data : document)
  (base_path : path) :
  WithStdout.create_profile_and_metadata_files env stdout data base_path
  = create_profile_and_metadata_files env data base_path.
Proof.
  unfold WithStdout.create_profile_and_metadata_files,
    create_profile_and_metadata_files.
  now rewrite !print_all_printed.
Qed.

Lemma create_catalog_file_all_printed (songs_data : list song)
  (base_path : path) :
  WithStdout.create_catalog_file env stdout songs_data base_path
  = create_catalog_file env songs_data base_path.
Proof.
  unfold WithStdout.create_catalog_file, create_catalog_file.
  now rewrite !print_all_printed.
Qed.

(** With a standard output that takes every line, the program is the
    program of the first part. *)
Lemma process_songbook_all_printed (input_filepath output_dir : string) :
  WithStdout.process_songbook env stdout input_filepath output_dir
  = process_songbook env input_filepath output_dir.
Proof.
  unfold WithStdout.process_songbook, process_songbook.
  rewrite print_all_printed.
  rewrite (try_except_pointwise _ _
             (fun e => print (load_diagnostic input_filepath e) ;; ret None))
    by (intros e; now rewrite print_all_printed).
  apply bind_pointwise. intros [data|]; [|reflexivity].
  rewrite create_directories_all_printed, create_song_files_all_printed,
    create_album_files_all_printed, create_artist_files_all_printed,
    create_profile_and_metadata_files_all_printed,
    create_catalog_file_all_printed.
  now rewrite !print_all_printed.
Qed.

End AllPrinted.

(** ** Items, stages and the run when printing can fail *)

Section Printing.

Variable env : environment.

Variable stdout : string -> option exn.













End Printing.

(** ** What a song file holds, when printing can fail *)

(** When every line is printed: the song file named after [t] holds the
    last record of the input that is given that file name, if the write
    of that record succeeded. *)
Lemma song_file_last_record_when_printed (env : environment)
  (input_filepath output_dir : string) (data : document)
  (pre post : list song) (s : song) (t : string) (before : file_state) :
  read_json env input_filepath = inr data ->
  first_makedirs_error env [output_dir] = None ->
  get_songs data = (pre ++ s :: post)%list ->
  title s = Some t -> t <> "Profile" ->
  (forall x t', In x post -> title x = Some t' -> t' <> "Profile" ->
                sanitize_filename t' <> sanitize_filename t) ->
  write_json env (item_path [output_dir] "songs" t) (OfSong s) = None ->
  file_after (trace (process_songbook env input_filepath output_dir))
    (item_path [output_dir] "songs" t) before
  = Dumped (OfSong s).
Proof.
  intros Hr Hmk Hsongs Ht Hp Hpost Hw.
  assert (Hd : outcome (create_directories env [output_dir]) = inr tt)
    by now rewrite create_directories_outcome, Hmk.
  rewrite (process_songbook_loaded env _ _ data Hr). cbn [trace fst].
  destruct (after_load_trace_split env data output_dir Hd)
    as (rest & -> & Hrest).
  rewrite create_song_files_run. cbn [trace fst].
  assert (Hso : songs_only_of (get_songs data)
                = (songs_only_of pre ++ s :: songs_only_of post)%list).
  { rewrite Hsongs. unfold songs_only_of. rewrite filter_app. cbn [filter].
    replace (get_eq (title s) "Profile") with false; [reflexivity|].
    symmetry. rewrite Ht. now apply String.eqb_neq. }
  rewrite Hso, flat_map_app. cbn [flat_map].
  set (p := item_path [output_dir] "songs" t).
  set (f := fun x => trace (create_song_file env
                              (os_path_join [output_dir] "songs") x)).
  match goal with
  | |- file_after ?l _ _ = _ =>
      replace l
        with ((Print ("Loading songbook from: " ++ input_filepath)
                 :: trace (create_directories env [output_dir])
                 ++ Print ("Creating individual files for "
                           ++ Str.of_nat
                                (List.length
                                   (songs_only_of pre
                                    ++ s :: songs_only_of post))
                           ++ " songs...")
                 :: flat_map f (songs_only_of pre))
              ++ f s
              ++ (flat_map f (songs_only_of post)
                  ++ Print "Song files created." :: rest))%list
  end.
  2:{ symmetry. apply regroup. }
  - rewrite file_after_app, file_after_app.
    rewrite (file_after_untouched
               (flat_map f (songs_only_of post)
                ++ Print "Song files created." :: rest)%list).
    + subst f. cbv beta. unfold p, item_path in *.
      rewrite (create_song_file_ok env _ s t Ht Hp Hw).
      unfold file_after. cbn [fold_left trace fst].
      now rewrite same_path_refl.
    + intros ev q Hin Hq.
      apply in_app_or in Hin as [Hin | Hin].
      * apply in_flat_map in Hin as (x & Hx & Hin).
        apply songs_only_of_In in Hx as [Hx _].
        destruct (create_song_file_paths env _ _ _ _ Hin Hq)
          as (t' & Ht' & Hp' & ->).
        unfold p, item_path, os_path_join. cbn [app].
        intros E. injection E as E. apply append_inv_tail in E.
        now apply (Hpost x t').
      * destruct Hin as [<- | Hin]; [discriminate|].
        apply (Hrest ev q Hin Hq).
Qed.


(** ** Failed writes of items, when printing can fail *)




(** ** Which song files are written, and in which order *)

(** X8: in a run whose directories could be created and whose lines
    could all be printed, a record with a title [t] is written to the song
    file named after [t] exactly when it is a record of the input, [t] is
    not [Profile], and that write does not fail: failed writes of other
    items do not prevent it. *)
Theorem song_file_written_iff (env : environment)
  (stdout : string -> option exn)
  (input_filepath output_dir : string) (data : document) (s : song)
  (t : string) :
  read_json env input_filepath = inr data ->
  first_makedirs_error env [output_dir] = None ->
  (forall line, stdout line = None) ->
  title s = Some t ->
  In (Write (item_path [output_dir] "songs" t) (OfSong s))
    (trace (WithStdout.process_songbook env stdout input_filepath
              output_dir))
  <-> In s (get_songs data) /\ t <> "Profile"
      /\ write_json env (item_path [output_dir] "songs" t) (OfSong s) = None.
Proof.
  intros Hr Hmk Hall Ht.
  rewrite (process_songbook_all_printed env stdout Hall).
  now apply song_written_iff_when_printed.
Qed.

Lemma song_file_written_iff_witness :
  In (Write ["out"; "songs"; "A.json"] (OfSong Sample.song_A))
    (trace (WithStdout.process_songbook
              (Sample.fails_at Sample.songbook [["out"; "songs"; "B.json"]])
              Sample.stdout_fine "songbook.json" "out")).
Proof.
  apply (proj2 (song_file_written_iff
                  (Sample.fails_at Sample.songbook
                     [["out"; "songs"; "B.json"]])
                  Sample.stdout_fine
                  "songbook.json" "out" Sample.songbook Sample.song_A "A"
                  eq_refl eq_refl (fun _ => eq_refl) eq_refl)).
  split; [simpl; tauto|]. split; [discriminate | reflexivity].
Defined.


(** X20: after a run whose directories could be created and whose lines
    could all be printed, the song file named after a title holds the
    complete dump of the last record of the input that is given that file
    name, if the write of that record succeeded, whatever was known of the
    file before and whatever happens later in the run.  Of several songs
    whose titles give one file name, only the last is kept. *)
Theorem song_file_holds_last_record (env : environment)
  (stdout : string -> option exn)
  (input_filepath output_dir : string) (data : document)
  (pre post : list song) (s : song) (t : string) (before : file_state) :
  read_json env input_filepath = inr data ->
  first_makedirs_error env [output_dir] = None ->
  (forall line, stdout line = None) ->
  get_songs data = (pre ++ s :: post)%list ->
  title s = Some t -> t <> "Profile" ->
  (forall x t', In x post -> title x = Some t' -> t' <> "Profile" ->
                sanitize_filename t' <> sanitize_filename t) ->
  write_json env (item_path [output_dir] "songs" t) (OfSong s) = None ->
  file_after
    (trace (WithStdout.process_songbook env stdout input_filepath output_dir))
    (item_path [output_dir] "songs" t) before
  = Dumped (OfSong s).
Proof.
  intros Hr Hmk Hall Hsongs Ht Hp Hpost Hw.
  rewrite (process_songbook_all_printed env stdout Hall).
  now apply (song_file_last_record_when_printed env _ _ data pre post).
Qed.

Lemma song_file_holds_last_record_witness :
  file_after
    (trace (WithStdout.process_songbook
              (Sample.all_fine Sample.songbook_with_collision)
              Sample.stdout_fine "songbook.json" "out"))
    ["out"; "songs"; "A_B.json"] Untouched
  = Dumped (OfSong Sample.song_a_b').
Proof.
  exact (song_file_holds_last_record
           (Sample.all_fine Sample.songbook_with_collision)
           Sample.stdout_fine
           "songbook.json" "out" Sample.songbook_with_collision
           [Sample.song_a_b; Sample.song_B] [] Sample.song_a_b' "A_B"
           Untouched
           eq_refl eq_refl (fun _ => eq_refl) eq_refl eq_refl
           ltac:(discriminate)
           ltac:(intros x t' [])
           eq_refl).
Defined.
